(** * DSXpert: the review cycle, the diff renderer, the formatter and the
      language detector

    A shallow embedding of the locally written logic of the DSXpert editor
    add-on:
    - [DiffLib] and [MediaDiff]: the line diff the review panel calls;
    - [Webview]: the script of the review panel ([highlightChanges],
      [accept], [reject]);
    - [Extension]: the command [dsxpert.optimizeCode] and the message handler
      of the review panel ([activate] in the extension host);
    - [Format]: the two variants of [formatCode];
    - [Regex] and [Detect]: the regular-expression based [detectLanguage].

    JavaScript strings are sequences of UTF-16 code units; they are modelled
    as lists of code units. *)

From Stdlib Require Import List NArith ZArith Bool String Ascii Lia
  DecimalString.
Import ListNotations.

Set Implicit Arguments.

(** ** JavaScript strings and values *)

Module JS.

Definition jsstring := list N.

(** Literals of the source, written as Rocq strings. *)
Definition str (s : string) : jsstring :=
  List.map N_of_ascii (list_ascii_of_string s).

Fixpoint eqb (a b : jsstring) : bool :=
  match a, b with
  | [], [] => true
  | x :: a', y :: b' => N.eqb x y && eqb a' b'
  | _, _ => false
  end.

(** The values a webview message field or a function argument can hold. *)
Inductive value :=
| VUndefined
| VNull
| VBool (b : bool)
| VNumber (z : Z)
| VString (s : jsstring).

(** [v === 'literal'], the comparison of a [switch] on strings. *)
Definition strict_eq_string (v : value) (lit : jsstring) : bool :=
  match v with
  | VString s => eqb s lit
  | _ => false
  end.

Definition is_text (v : value) : bool :=
  match v with
  | VString _ => true
  | _ => false
  end.

(** Code units that [\s] and [String.prototype.trim] treat as white space. *)
Definition is_space (c : N) : bool :=
  ((9 <=? c) && (c <=? 13) || (c =? 32) || (c =? 160) || (c =? 5760)
   || (8192 <=? c) && (c <=? 8202) || (c =? 8232) || (c =? 8233)
   || (c =? 8239) || (c =? 8287) || (c =? 12288) || (c =? 65279))%N.

Fixpoint trimStart (s : jsstring) : jsstring :=
  match s with
  | [] => []
  | c :: s' => if is_space c then trimStart s' else s
  end.

Definition trim (s : jsstring) : jsstring :=
  rev (trimStart (rev (trimStart s))).

End JS.

Import JS.


(** ** The line diff of the [diff] package

    [media/diff.js] and the webview script call [Diff.diffLines] of the
    [diff] package, a dependency whose source is not part of the repository.
    The definitions of this module follow the specification's description of
    the operation [computeDiff]. *)

Module DiffLib.

(** A change object, with the three fields the webview script reads. *)
Record change := mkChange {
  value : jsstring;
  added : bool;
  removed : bool
}.

Inductive kind := Unchanged | Added | Removed.

Definition kind_eqb (a b : kind) : bool :=
  match a, b with
  | Unchanged, Unchanged | Added, Added | Removed, Removed => true
  | _, _ => false
  end.

Definition kind_of (c : change) : kind :=
  if added c then Added else if removed c then Removed else Unchanged.

Definition segment (k : kind) (text : jsstring) : change :=
  match k with
  | Unchanged => mkChange text false false
  | Added => mkChange text true false
  | Removed => mkChange text false true
  end.

Fixpoint tokens_eqb (a b : list jsstring) : bool :=
  match a, b with
  | [], [] => true
  | x :: a', y :: b' => JS.eqb x y && tokens_eqb a' b'
  | _, _ => false
  end.

(** Modelled from the spec: the lines of a text, the unit of comparison of
    [Diff.diffLines] (package [diff], absent from the sources). A line ends
    after its line feed; a last line without line feed is a line too; the
    empty text has no line. [cur] is the line read so far. *)
Fixpoint tokenize_from (cur text : jsstring) : list jsstring :=
  match text with
  | [] => match cur with [] => [] | _ :: _ => [cur] end
  | c :: text' =>
      if (c =? 10)%N then (cur ++ [c]) :: tokenize_from [] text'
      else tokenize_from (cur ++ [c]) text'
  end.

(** Modelled from the spec: the lines of a whole text, for
    [Diff.diffLines] (package [diff], absent from the sources). *)
Definition tokenize (text : jsstring) : list jsstring := tokenize_from [] text.

(** The number of lines of an edit script that both texts share. *)
Fixpoint common (script : list (kind * jsstring)) : nat :=
  match script with
  | [] => 0
  | (Unchanged, _) :: script' => S (common script')
  | _ :: script' => common script'
  end.

(** Modelled from the spec: the longest-common-subsequence edit script of
    [Diff.diffLines] (package [diff], absent from the sources) over the
    lines of the two texts: a line of both is kept, a line of the original
    only is removed, a line of the modified text only is added. Of two
    scripts that keep as many lines, the one that removes first is taken. *)
Fixpoint lcs_script (old new : list jsstring) : list (kind * jsstring) :=
  match old with
  | [] => List.map (pair Added) new
  | x :: old' =>
      (fix against (new : list jsstring) : list (kind * jsstring) :=
         match new with
         | [] => List.map (pair Removed) (x :: old')
         | y :: new' =>
             if JS.eqb x y then (Unchanged, y) :: lcs_script old' new'
             else
               let del := (Removed, x) :: lcs_script old' (y :: new') in
               let ins := (Added, y) :: against new' in
               if Nat.leb (common ins) (common del) then del else ins
         end) new
  end.

(** Modelled from the spec: the maximal runs of [Diff.diffLines] (package
    [diff], absent from the sources): neighbouring lines of one kind are
    joined into one segment. *)
Fixpoint group (script : list (kind * jsstring)) : list change :=
  match script with
  | [] => []
  | (k, line) :: script' =>
      match group script' with
      | [] => [segment k line]
      | c :: cs =>
          if kind_eqb k (kind_of c) then segment k (line ++ value c) :: cs
          else segment k line :: c :: cs
      end
  end.

(** Modelled from the spec: [Diff.diffLines] of the package [diff], which is
    absent from the sources. Equal texts (line by line) give the single
    unchanged segment of the degenerate case; otherwise the texts are
    partitioned into maximal runs of unchanged, removed and added lines. *)
Definition diffLines (oldStr newStr : jsstring) : list change :=
  let old := tokenize oldStr in
  let new := tokenize newStr in
  if tokens_eqb old new then [segment Unchanged (List.concat new)]
  else group (lcs_script old new).

(** The errors the script of the panel can end with: the [InputError] of the
    specification, for a diff of what is not text, and the [TypeError] of a
    property access on [null]. *)
Inductive error :=
| InputError
| TypeError.

(** Modelled from the spec: the failure of [Diff.diffLines] (package [diff],
    absent from the sources) on an argument that is not text. *)
Definition diffLines_value (oldStr newStr : JS.value) : error + list change :=
  match oldStr, newStr with
  | VString a, VString b => inr (diffLines a b)
  | _, _ => inl InputError
  end.

(** The text of the segments of the given kinds, in sequence order. *)
Definition text_of (kinds : list kind) (segments : list change) : jsstring :=
  List.concat
    (List.map value
       (List.filter (fun c => existsb (kind_eqb (kind_of c)) kinds) segments)).

(** The lines of an edit script whose kind satisfies [P], in order. *)
Definition side (P : kind -> bool) (script : list (kind * jsstring))
  : list jsstring :=
  List.map snd (List.filter (fun e => P (fst e)) script).

Definition in_old (k : kind) : bool :=
  match k with Added => false | _ => true end.

Definition in_new (k : kind) : bool :=
  match k with Removed => false | _ => true end.

Definition is_unchanged (k : kind) : bool :=
  match k with Unchanged => true | _ => false end.

(** [c] is a subsequence of [l]. *)
Inductive Subseq : list jsstring -> list jsstring -> Prop :=
| sub_nil l : Subseq [] l
| sub_take x c l : Subseq c l -> Subseq (x :: c) (x :: l)
| sub_skip x c l : Subseq c l -> Subseq c (x :: l).

(** No two neighbouring segments are of one kind. *)
Fixpoint runs_maximal (segments : list change) : Prop :=
  match segments with
  | a :: (b :: _) as rest => kind_of a <> kind_of b /\ runs_maximal rest
  | _ => True
  end.

End DiffLib.

(** ** [media/diff.js] *)

Module MediaDiff.

(** [window.Diff.diffLines]: hands its two arguments to the package. This is
    the operation [computeDiff] of the specification. *)
Definition diffLines (oldStr newStr : JS.value)
  : DiffLib.error + list DiffLib.change :=
  DiffLib.diffLines_value oldStr newStr.

End MediaDiff.

(** ** The script of the review panel *)

Module Webview.

Import DiffLib.

(** An element created by the script, or found under [#optimized-code]. *)
Record span := mkSpan {
  textContent : jsstring;
  classList : list jsstring
}.

(** The part of the page the script reads and writes: the text of
    [#original code] and the children of [#optimized-code]; [None] when
    [querySelector] finds no such element. *)
Record dom := mkDom {
  original_code : option jsstring;
  optimized_code : option (list span)
}.

(** A message posted to the extension host. *)
Record message := mkMessage {
  command : JS.value;
  code : JS.value
}.

(** Statements of the script: they read and change the page and may throw. *)
Definition M (A : Type) : Type := dom -> (error + A) * dom.

Definition ret {A} (a : A) : M A := fun d => (inr a, d).

(** A computation that leaves the page alone: its value, or the error it
    throws. *)
Definition lift {A} (r : error + A) : M A := fun d => (r, d).

Definition throw {A} (e : error) : M A := lift (inl e).

Definition bind {A B} (m : M A) (f : A -> M B) : M B :=
  fun d =>
    match m d with
    | (inl e, d') => (inl e, d')
    | (inr a, d') => f a d'
    end.

Declare Scope script_scope.
Delimit Scope script_scope with script.
Notation "x <- m ;; k" := (bind m (fun x => k))
  (at level 61, m at next level, right associativity) : script_scope.
Notation "m ;; k" := (bind m (fun _ => k))
  (at level 61, right associativity) : script_scope.
Local Open Scope script_scope.

Fixpoint forEach {A} (f : A -> M unit) (l : list A) : M unit :=
  match l with
  | [] => ret tt
  | x :: l' => f x ;; forEach f l'
  end.

(** [optimizedCodeElement.innerHTML = ""], on the result of
    [document.querySelector("#optimized-code")]. *)
Definition clear_optimized_code : M unit :=
  fun d =>
    match optimized_code d with
    | None => throw TypeError d
    | Some _ => (inr tt, mkDom (original_code d) (Some []))
    end.

(** [optimizedCodeElement.appendChild(span)]. *)
Definition appendChild (s : span) : M unit :=
  fun d =>
    match optimized_code d with
    | None => throw TypeError d
    | Some children => (inr tt, mkDom (original_code d) (Some (children ++ [s])))
    end.

(** The text an element shows: the text of its children, in order. *)
Definition innerText (children : list span) : jsstring :=
  List.concat (List.map textContent children).

(** The body of the [forEach] callback up to [appendChild]. *)
Definition make_span (part : change) : span :=
  mkSpan (value part)
    (if added part then [str "hl-added"]
     else if removed part then [str "hl-removed"]
     else [str "hl-unchanged"]).

(** Lines 21 to 35 of the script: the rendering of a segment sequence. *)
Definition render (diff : list change) : M unit :=
  clear_optimized_code ;;
  forEach (fun part => appendChild (make_span part)) diff.

Definition highlightChanges (originalCode optimizedCode : JS.value) : M unit :=
  diff <- lift (MediaDiff.diffLines originalCode optimizedCode) ;;
  render diff.

(** [optimizedCode] is the [innerText] of [#optimized-code]. *)
Definition accept : M message :=
  fun d =>
    match optimized_code d with
    | None => throw TypeError d
    | Some children =>
        let optimizedCode := innerText children in
        ret (mkMessage (VString (str "accept")) (VString optimizedCode)) d
    end.

Definition reject : M message :=
  ret (mkMessage (VString (str "reject")) VUndefined).

(** The [DOMContentLoaded] listener, after the syntax highlighting. *)
Definition onDOMContentLoaded : M unit :=
  fun d =>
    match original_code d, optimized_code d with
    | Some originalCode, Some children =>
        highlightChanges (VString originalCode) (VString (innerText children)) d
    | _, _ => throw TypeError d
    end.

End Webview.

(** ** The extension host: one review cycle *)

Module Extension.

Import Webview.

Inductive notification :=
| Info (text : jsstring)
| Error (text : jsstring).

(** What the handler of the review panel can observe and change: the text of
    the editor's document, the edits applied through [workspace.applyEdit]
    (the replacement texts, most recent first), the notifications shown, and
    whether the panel has been disposed. *)
Record host := mkHost {
  document : jsstring;
  replacements : list jsstring;
  notifications : list notification;
  disposed : bool
}.

Definition showInformationMessage (text : jsstring) (h : host) : host :=
  mkHost (document h) (replacements h) (Info text :: notifications h) (disposed h).

Definition showErrorMessage (text : jsstring) (h : host) : host :=
  mkHost (document h) (replacements h) (Error text :: notifications h) (disposed h).

Definition dispose (h : host) : host :=
  mkHost (document h) (replacements h) (notifications h) true.

(** [edit.replace(document.uri, new Range(positionAt(0), positionAt(n)), text)]
    followed by [applyEdit]: the first [n] code units of the document are
    replaced by [text] ([positionAt] clamps to the end of the document). *)
Definition applyEdit_replace (n : nat) (text : jsstring) (h : host) : host :=
  mkHost (text ++ skipn n (document h)) (text :: replacements h)
         (notifications h) (disposed h).

(** The callback given to [panel.webview.onDidReceiveMessage]. [userCode] and
    [code] are the variables of the enclosing closure: the text of the
    document when the command started and the optimized code returned by
    [getOptimizedCode]. Of the message only the field [command] is read. *)
Definition onDidReceiveMessage (userCode code : jsstring)
    (message : Webview.message) (h : host) : host :=
  if strict_eq_string (command message) (str "accept") then
    dispose
      (showInformationMessage (str "Optimized code accepted!")
         (applyEdit_replace (List.length userCode) code h))
  else if strict_eq_string (command message) (str "reject") then
    dispose (showInformationMessage (str "Optimized code rejected.") h)
  else h.

(** The state after the command [dsxpert.optimizeCode] has run up to the
    point where it waits for the reviewer: either the command has ended, or
    a panel is open and its handler holds [userCode] and the optimized
    code. *)
Inductive outcome :=
| Ended (h : host)
| Reviewing (userCode code explanation : jsstring) (h : host).

Section Command.

(** [getOptimizedCode] calls the external service; it either throws an
    [Error] with a message or returns the optimized code and an
    explanation. *)
Variable getOptimizedCode : jsstring -> jsstring + (jsstring * jsstring).

(** The body of the command. [editor] is [vscode.window.activeTextEditor]:
    [false] when there is none. *)
Definition optimizeCode (editor : bool) (h : host) : outcome :=
  if negb editor then
    Ended (showErrorMessage (str "No active editor found.") h)
  else
    let userCode := document h in
    match getOptimizedCode userCode with
    | inl errorMessage =>
        Ended (showErrorMessage
                 (str "Failed to optimize code: " ++ errorMessage) h)
    | inr (code, explanation) =>
        Reviewing userCode code explanation h
    end.

End Command.

Definition host_of (o : outcome) : host :=
  match o with
  | Ended h => h
  | Reviewing _ _ _ h => h
  end.

(** The reviewer accepts while the panel shows [d]: the script posts its
    message and the handler of the host receives it. *)
Definition accept_cycle (userCode optimized : jsstring) (d : dom) (h : host)
  : option host :=
  match fst (Webview.accept d) with
  | inl _ => None
  | inr msg => Some (onDidReceiveMessage userCode optimized msg h)
  end.

(** The text shown in the modified view. *)
Definition displayed (d : dom) : option jsstring :=
  option_map innerText (optimized_code d).

(** The last replacement text written to the document. *)
Definition emitted (h : host) : option jsstring := hd_error (replacements h).

(** "On accept, the text written back is the text shown in the modified view
    at that moment": the statement the handler is compared with. *)
Definition accept_emits_displayed (userCode optimized : jsstring)
    (d : dom) (h : host) : Prop :=
  forall h', accept_cycle userCode optimized d h = Some h' ->
             emitted h' = displayed d.

(** A review cycle in which the reviewer has changed the text shown before
    accepting: the document holds [x = 1], the optimized code is [x = 2] and
    the view shows [x = 3]. *)
Definition sample_host : host := mkHost (str "x = 1") [] [] false.

Definition sample_edited_dom : dom :=
  mkDom (Some (str "x = 1")) (Some [mkSpan (str "x = 3") [str "hl-added"]]).

End Extension.

(** ** [formatCode] *)

Module Format.

Section Formatters.

(** [prettier.format(code, { parser: "babel" })]: the formatted text, or the
    error it throws. *)
Variable prettier_format : jsstring -> jsstring + jsstring.

(** [exec(command, callback)] with [code] written to the standard input of
    the child: the error handed to the callback, or the standard output. *)
Variable exec : jsstring -> jsstring -> jsstring + jsstring.

(** The variant that formats with prettier inside [try]/[catch]. *)
Definition formatCode (code language : jsstring) : jsstring :=
  if JS.eqb language (str "javascript") || JS.eqb language (str "typescript")
  then
    match prettier_format code with
    | inr formatted => formatted
    | inl _ => code
    end
  else code.

(** The [switch] of the variant that runs an external formatter: the command
    line, or [None] in the [default] case. *)
Definition formatter_command (language : jsstring) : option jsstring :=
  if JS.eqb language (str "javascript") || JS.eqb language (str "typescript")
  then Some (str "npx prettier --parser " ++ language
             ++ str " --stdin-filepath temp." ++ language)
  else if JS.eqb language (str "python") then Some (str "black -q -")
  else if JS.eqb language (str "java") then Some (str "google-java-format -")
  else if JS.eqb language (str "cpp") || JS.eqb language (str "c")
          || JS.eqb language (str "c++")
  then Some (str "clang-format")
  else if JS.eqb language (str "csharp") then Some (str "dotnet format --folder")
  else if JS.eqb language (str "ruby") then Some (str "ruby -c")
  else if JS.eqb language (str "php") then Some (str "php -l")
  else if JS.eqb language (str "swift") then Some (str "swift-format format --stdin")
  else if JS.eqb language (str "go") then Some (str "gofmt")
  else if JS.eqb language (str "rust") then Some (str "rustfmt")
  else None.

(** The variant that runs an external formatter; the value the promise is
    resolved with. *)
Definition formatCode_exec (code language : jsstring) : jsstring :=
  match formatter_command language with
  | None => code
  | Some command =>
      match exec command code with
      | inl _ => code
      | inr stdout => JS.trim stdout
      end
  end.

End Formatters.

(** A machine on which only Ruby is installed. The command [ruby -c] reads a
    program from its standard input, checks its syntax and prints
    [Syntax OK] and a line feed when it finds no error; it prints no code.
    Every other command is missing. *)
Definition ruby_installed (command code : jsstring) : jsstring + jsstring :=
  if JS.eqb command (str "ruby -c") then inr (str "Syntax OK" ++ [10%N])
  else inl (str "ENOENT").

End Format.

(** ** Regular expressions *)

Module Regex.

Inductive regex :=
| Void
| Eps
| Class (p : N -> bool)
| Cat (r1 r2 : regex)
| Alt (r1 r2 : regex)
| Star (r : regex).

Definition Chr (c : N) : regex := Class (N.eqb c).

Definition Plus (r : regex) : regex := Cat r (Star r).

Fixpoint lit (s : jsstring) : regex :=
  match s with
  | [] => Eps
  | c :: s' => Cat (Chr c) (lit s')
  end.

Definition seq (rs : list regex) : regex := fold_right Cat Eps rs.

(** [\w] *)
Definition is_word (c : N) : bool :=
  ((48 <=? c) && (c <=? 57) || (65 <=? c) && (c <=? 90) || (c =? 95)
   || (97 <=? c) && (c <=? 122))%N.

(** [.], which leaves out the line terminators *)
Definition is_dot (c : N) : bool :=
  negb ((c =? 10) || (c =? 13) || (c =? 8232) || (c =? 8233))%N.

Definition s := Class JS.is_space.
Definition w := Class is_word.
Definition dot := Class is_dot.

Fixpoint nullable (r : regex) : bool :=
  match r with
  | Void => false
  | Eps => true
  | Class _ => false
  | Cat r1 r2 => nullable r1 && nullable r2
  | Alt r1 r2 => nullable r1 || nullable r2
  | Star _ => true
  end.

(** What is left of [r] to match after the code unit [c]. *)
Fixpoint deriv (c : N) (r : regex) : regex :=
  match r with
  | Void => Void
  | Eps => Void
  | Class p => if p c then Eps else Void
  | Cat r1 r2 =>
      if nullable r1 then Alt (Cat (deriv c r1) r2) (deriv c r2)
      else Cat (deriv c r1) r2
  | Alt r1 r2 => Alt (deriv c r1) (deriv c r2)
  | Star r1 => Cat (deriv c r1) (Star r1)
  end.

(** A match of [r] starts at the beginning of [text]. *)
Fixpoint match_here (r : regex) (text : jsstring) : bool :=
  nullable r ||
  match text with
  | [] => false
  | c :: text' => match_here (deriv c r) text'
  end.

(** [pattern.test(text)] for a pattern without flags: a match starts at some
    index of [text]. *)
Fixpoint test (r : regex) (text : jsstring) : bool :=
  match_here r text ||
  match text with
  | [] => false
  | _ :: text' => test r text'
  end.

(** The words a pattern matches. *)
Inductive Matches : regex -> jsstring -> Prop :=
| MEps : Matches Eps []
| MClass p c : p c = true -> Matches (Class p) [c]
| MCat r1 r2 u v : Matches r1 u -> Matches r2 v -> Matches (Cat r1 r2) (u ++ v)
| MAltL r1 r2 u : Matches r1 u -> Matches (Alt r1 r2) u
| MAltR r1 r2 u : Matches r2 u -> Matches (Alt r1 r2) u
| MStarNil r : Matches (Star r) []
| MStarCons r u v : Matches r u -> Matches (Star r) v -> Matches (Star r) (u ++ v).

End Regex.

(** ** [detectLanguage] *)

Module Detect.

Import Regex.

Definition python_pattern : regex :=
  seq [lit (str "def"); Plus s; Plus w; Star s; lit (str "(")].

Definition java_pattern : regex :=
  Alt (seq [lit (str "public"); Plus s; lit (str "class"); Plus s])
      (seq [lit (str "void"); Plus s; lit (str "main"); Star s; lit (str "(")]).

Definition cpp_pattern : regex :=
  Alt (seq [lit (str "#include"); Plus s; lit (str "<"); Star dot; lit (str ">")])
      (seq [lit (str "int"); Plus s; lit (str "main"); Star s; lit (str "(")]).

Definition javascript_pattern : regex :=
  Alt (seq [lit (str "function"); Plus s; Plus w; Star s; lit (str "(")])
      (seq [lit (str "const"); Plus s; Plus w; Star s; lit (str "="); Star s;
            lit (str "()"); Star s; lit (str "=>")]).

Definition csharp_pattern : regex :=
  Alt (seq [lit (str "using"); Plus s; lit (str "System;")])
      (Alt (seq [lit (str "class"); Plus s; Plus w; Star s; lit (str "{")])
           (seq [lit (str "static"); Plus s; lit (str "void"); Plus s;
                 lit (str "Main"); Star s; lit (str "(")])).

Definition ruby_pattern : regex :=
  Alt (seq [lit (str "def"); Plus s; Plus w])
      (Alt (seq [lit (str "class"); Plus s; Plus w])
           (seq [lit (str "module"); Plus s; Plus w])).

Definition php_pattern : regex :=
  Alt (lit (str "<?php"))
      (seq [lit (str "function"); Plus s; Plus w; Star s; lit (str "(")]).

Definition swift_pattern : regex :=
  Alt (seq [lit (str "import"); Plus s; lit (str "Foundation")])
      (seq [lit (str "func"); Plus s; Plus w; Star s; lit (str "(")]).

Definition go_pattern : regex :=
  Alt (seq [lit (str "package"); Plus s; lit (str "main")])
      (seq [lit (str "func"); Plus s; lit (str "main"); Star s; lit (str "(")]).

Definition rust_pattern : regex :=
  seq [lit (str "fn"); Plus s; lit (str "main"); Star s; lit (str "(")].

(** The entries of the object literal, in the order [Object.entries] lists
    them: the order they are written in. *)
Definition languagePatterns : list (jsstring * regex) :=
  [ (str "python", python_pattern);
    (str "java", java_pattern);
    (str "cpp", cpp_pattern);
    (str "javascript", javascript_pattern);
    (str "csharp", csharp_pattern);
    (str "ruby", ruby_pattern);
    (str "php", php_pattern);
    (str "swift", swift_pattern);
    (str "go", go_pattern);
    (str "rust", rust_pattern) ].

(** The [for] loop over the entries, with its [return] inside. *)
Fixpoint first_match (entries : list (jsstring * regex)) (code : jsstring)
  : jsstring :=
  match entries with
  | [] => str "unknown"
  | (lang, pattern) :: entries' =>
      if test pattern code then lang else first_match entries' code
  end.

Definition detectLanguage (code : jsstring) : jsstring :=
  first_match languagePatterns code.

(** The labels [detectLanguage] can return. *)
Definition labels : list jsstring :=
  List.map str
    ["python"; "java"; "cpp"; "javascript"; "csharp"; "ruby"; "php"; "swift";
     "go"; "rust"; "unknown"]%string.

End Detect.

(** ** String methods used by the extension host *)

Module Str.

(** [!s]: the empty string is the only string that is falsy. *)
Definition falsy (s : jsstring) : bool :=
  match s with
  | [] => true
  | _ :: _ => false
  end.

(** [s.startsWith(p)]. *)
Fixpoint startsWith (s p : jsstring) {struct p} : bool :=
  match p, s with
  | [], _ => true
  | x :: p', y :: s' => N.eqb x y && startsWith s' p'
  | _ :: _, [] => false
  end.

(** [s.includes(needle)]: [needle] starts at some index of [s]. *)
Fixpoint includes (s needle : jsstring) : bool :=
  startsWith s needle ||
  match s with
  | [] => false
  | _ :: s' => includes s' needle
  end.

(** The alternatives of a pattern [(lit1|lit2|...)], each with the text that
    replaces it; at one index the first alternative that matches is taken. *)
Fixpoint first_alt (alts : list (jsstring * jsstring)) (s : jsstring)
  : option (jsstring * jsstring) :=
  match alts with
  | [] => None
  | (lit, rep) :: alts' =>
      if startsWith s lit then Some (lit, rep) else first_alt alts' s
  end.

(** [s.replace(/(lit1|lit2|...)/g, ...)] for literals that are not empty:
    the text is scanned from the left; a match is replaced and the scan goes
    on behind it. [fuel] bounds the number of steps. *)
Fixpoint replace_fuel (fuel : nat) (alts : list (jsstring * jsstring))
    (s : jsstring) : jsstring :=
  match fuel with
  | O => s
  | S fuel' =>
      match s with
      | [] => []
      | c :: s' =>
          match first_alt alts s with
          | Some (lit, rep) =>
              rep ++ replace_fuel fuel' alts (skipn (List.length lit) s)
          | None => c :: replace_fuel fuel' alts s'
          end
      end
  end.

Definition replaceAll (alts : list (jsstring * jsstring)) (s : jsstring)
  : jsstring :=
  replace_fuel (List.length s) alts s.

(** Some alternative matches at some index of [s]. *)
Fixpoint occurs (alts : list (jsstring * jsstring)) (s : jsstring) : bool :=
  match first_alt alts s with
  | Some _ => true
  | None => match s with [] => false | _ :: s' => occurs alts s' end
  end.

(** Every literal of the pattern has at least one code unit. *)
Definition literals_nonempty (alts : list (jsstring * jsstring)) : Prop :=
  forall lit rep, In (lit, rep) alts -> lit <> [].

End Str.

(** ** The first extension host ([src/extension.js])

    The command replaces the selection without a review panel. *)

Module ExtensionJs.

(** The active editor: the text before the selection, the selected text and
    the text behind it. *)
Record editor := mkEditor {
  before : jsstring;
  selection : jsstring;
  after : jsstring
}.

Definition getText (e : editor) : jsstring :=
  before e ++ selection e ++ after e.

Record host := mkHost {
  activeTextEditor : option editor;
  notifications : list Extension.notification
}.

Definition showInformationMessage (text : jsstring) (h : host) : host :=
  mkHost (activeTextEditor h) (Extension.Info text :: notifications h).

Definition showErrorMessage (text : jsstring) (h : host) : host :=
  mkHost (activeTextEditor h) (Extension.Error text :: notifications h).

(** [editBuilder.replace(editor.selection, text)]. *)
Definition edit_replace (e : editor) (text : jsstring) (h : host) : host :=
  mkHost (Some (mkEditor (before e) text (after e))) (notifications h).

Definition prompt (language userCode : jsstring) : jsstring :=
  str "
        You are an AI that automatically optimizes and transforms "
    ++ language
    ++ str " code by selecting the best data structures dynamically.

        **Requirements:**
        1. Detect the programming language.
        2. Identify inefficient data structures used in the code.
        3. Replace them with optimized alternatives based on:
           - Space and time complexity
           - Input size
           - Readability and maintainability
        4. Ensure correctness and functionality remain unchanged.
        5. Return the transformed code, explaining the changes made.

        **Input Code:**
        ```"
    ++ language
    ++ str "
        "
    ++ userCode
    ++ str "
        ```

        **Optimized Code:**".

Section Service.

(** [model.generateContent(prompt)] followed by [result.response.text()]:
    the text of the answer, or [None] when the call throws or the response
    is not valid. *)
Variable generateContent : jsstring -> option jsstring.

Definition getOptimizedCode (userCode : jsstring) : jsstring :=
  let language := Detect.detectLanguage userCode in
  match generateContent (prompt language userCode) with
  | Some text => text
  | None => str "Error generating optimized code."
  end.

(** The callback registered for [dsxpert.optimizeCode]. *)
Definition optimizeCode (h : host) : host :=
  match activeTextEditor h with
  | None => showErrorMessage (str "No active editor found.") h
  | Some e =>
      let userCode := selection e in
      match userCode with
      | [] => showErrorMessage (str "Please select some code first.") h
      | _ :: _ =>
          let h1 := showInformationMessage (str "Optimizing code...") h in
          let optimizedCode := getOptimizedCode userCode in
          if Str.falsy optimizedCode || Str.includes optimizedCode (str "Error")
          then showErrorMessage (str "Failed to optimize code.") h1
          else
            showInformationMessage (str "Code optimized successfully!")
              (edit_replace e optimizedCode h1)
      end
  end.

End Service.

(** The text of the document, when there is an editor. *)
Definition document (h : host) : option jsstring :=
  option_map getText (activeTextEditor h).

End ExtensionJs.

(** ** The extension host that asks through a quick pick *)

Module QuickPick.

Import ExtensionJs.

(** The host also shows the explanation in a panel of its own. *)
Record host := mkHost {
  activeTextEditor : option editor;
  notifications : list Extension.notification;
  explanations : list jsstring
}.

Definition showInformationMessage (text : jsstring) (h : host) : host :=
  mkHost (activeTextEditor h) (Extension.Info text :: notifications h)
         (explanations h).

Definition showErrorMessage (text : jsstring) (h : host) : host :=
  mkHost (activeTextEditor h) (Extension.Error text :: notifications h)
         (explanations h).

Definition showExplanationWebview (explanation : jsstring) (h : host) : host :=
  mkHost (activeTextEditor h) (notifications h) (explanation :: explanations h).

Definition edit_replace (e : editor) (text : jsstring) (h : host) : host :=
  mkHost (Some (mkEditor (before e) text (after e))) (notifications h)
         (explanations h).

Section Command.

(** [getOptimizedCode] of this variant catches every error and always
    returns an object with [code] and [explanation]. *)
Variable getOptimizedCode : jsstring -> jsstring * jsstring.

(** The callback registered for [dsxpert.optimizeCode]. [choice] is what
    [showQuickPick] resolves to: the item picked, or [None] when the pick is
    dismissed. *)
Definition optimizeCode (choice : option jsstring) (h : host) : host :=
  match activeTextEditor h with
  | None => showErrorMessage (str "No active editor found.") h
  | Some e =>
      let userCode := selection e in
      if Str.falsy userCode then
        showErrorMessage (str "Please select some code first.") h
      else
        let h1 := showInformationMessage (str "Optimizing code...") h in
        let (optimizedCode, explanation) := getOptimizedCode userCode in
        if Str.falsy optimizedCode || Str.includes optimizedCode (str "Error")
        then showErrorMessage (str "Failed to optimize code.") h1
        else
          let h2 := showExplanationWebview explanation h1 in
          match choice with
          | Some picked =>
              if JS.eqb picked (str "Accept Changes") then
                showInformationMessage (str "Code optimized successfully!")
                  (edit_replace e optimizedCode h2)
              else showInformationMessage (str "Optimization rejected.") h2
          | None => showInformationMessage (str "Optimization rejected.") h2
          end
  end.

End Command.

Definition document (h : host) : option jsstring :=
  option_map getText (activeTextEditor h).

End QuickPick.

(** ** The retry loop of [getOptimizedCode] *)

Module Retry.

(** The two errors the loop throws: [Failed after ${retries} attempts. Last
    error: ${lastError.message}] and [Unexpected error: Function exited
    without returning a result.] *)
Inductive failure :=
| FailedAfter (retries : Z) (lastError : jsstring)
| Unexpected.

Section Loop.

Variable A : Type.

(** The [try] block: what it does when it runs for the time [n], counted
    from 0: the message of the error it throws, or the object it returns. *)
Variable body : nat -> jsstring + A.

Variable retries : Z.

(** The [while] loop, entered with [attempts] failed runs behind. The result
    holds the number of runs of the [try] block; [None] when [fuel] runs
    out. *)
Fixpoint loop (fuel attempts : nat) : option (nat * (failure + A)) :=
  if (Z.of_nat attempts <? retries)%Z then
    match fuel with
    | O => None
    | S fuel' =>
        match body attempts with
        | inr result => Some (S attempts, inr result)
        | inl lastError =>
            let attempts := S attempts in
            if (Z.of_nat attempts >=? retries)%Z
            then Some (attempts, inl (FailedAfter retries lastError))
            else loop fuel' attempts
        end
    end
  else Some (attempts, inl Unexpected).

Definition getOptimizedCode : option (nat * (failure + A)) :=
  loop (Z.to_nat retries) 0.

End Loop.

End Retry.

(** ** [detectLanguage] through the language service *)

Module AiDetect.

(** [[a-z#+]] *)
Definition allowed (c : N) : bool :=
  ((97 <=? c) && (c <=? 122) || (c =? 35) || (c =? 43))%N.

(** [text.replace(/[^a-z#+]/g, '')] *)
Definition strip (text : jsstring) : jsstring := List.filter allowed text.

(** [.replace(/(sharp)/g, 'csharp')] *)
Definition sharp := [(str "sharp", str "csharp")].

(** [.replace(/(cpp|c\+\+)/g, 'cpp')] *)
Definition cpp := [(str "cpp", str "cpp"); (str "c++", str "cpp")].

(** [.replace(/(js|typescript)/g, m => m === 'js' ? 'javascript' :
    'typescript')] *)
Definition js :=
  [(str "js", str "javascript"); (str "typescript", str "typescript")].

Definition has (set : list jsstring) (x : jsstring) : bool :=
  existsb (JS.eqb x) set.

Definition prompt (code : jsstring) : jsstring :=
  str "Determine the programming language of the following code snippet. 
            Respond ONLY with the language name in lowercase, nothing else.
            
            Code:
" ++ code.

Section Service.

(** [String.prototype.toLowerCase], which follows the Unicode tables. *)
Variable toLowerCase : jsstring -> jsstring.

(** [model.generateContent(prompt)] followed by [result.response.text()]:
    the text of the answer, or [None] when the call throws. *)
Variable generateContent : jsstring -> option jsstring.

(** The variant with thirteen supported languages and the C++ step. *)
Definition SUPPORTED_LANGUAGES : list jsstring :=
  List.map str
    ["python"; "java"; "cpp"; "javascript"; "typescript"; "csharp"; "ruby";
     "php"; "swift"; "go"; "rust"; "c"; "c++"]%string.

Definition sanitize (text : jsstring) : jsstring :=
  Str.replaceAll js
    (Str.replaceAll cpp (Str.replaceAll sharp (strip text))).

Definition detectLanguage (code : jsstring) : jsstring :=
  match generateContent (prompt code) with
  | None => str "unknown"
  | Some response =>
      let text := toLowerCase (JS.trim response) in
      let detectedLang := sanitize text in
      if has SUPPORTED_LANGUAGES detectedLang then detectedLang
      else str "unknown"
  end.

(** The variant with eleven supported languages and without the C++ step. *)
Definition SUPPORTED_LANGUAGES_pro : list jsstring :=
  List.map str
    ["python"; "java"; "cpp"; "javascript"; "typescript"; "csharp"; "ruby";
     "php"; "swift"; "go"; "rust"]%string.

Definition sanitize_pro (text : jsstring) : jsstring :=
  Str.replaceAll js (Str.replaceAll sharp (strip text)).

Definition detectLanguage_pro (code : jsstring) : jsstring :=
  match generateContent (prompt code) with
  | None => str "unknown"
  | Some response =>
      let text := toLowerCase (JS.trim response) in
      let detectedLang := sanitize_pro text in
      if has SUPPORTED_LANGUAGES_pro detectedLang then detectedLang
      else str "unknown"
  end.

End Service.

End AiDetect.

(** ** [refineOptimizedCode], the variant that adds the missing headers *)

Module Refine.

Import Str.

Definition quote : jsstring := [34%N].
Definition apostrophe : jsstring := [39%N].
Definition backslash : jsstring := [92%N].

(** [if (condition) { code = header + code; }] *)
Definition when (condition : bool) (header code : jsstring) : jsstring :=
  if condition then header ++ code else code.

Definition is_quote (c : N) : bool := ((c =? 39) || (c =? 34))%N.

(** The part of [text] up to its first line terminator. *)
Fixpoint line_of (text : jsstring) : jsstring :=
  match text with
  | [] => []
  | c :: text' => if Regex.is_dot c then c :: line_of text' else []
  end.

(** The greedy capture of the pattern for [require], which is followed by a
    quote (single or double) and a closing parenthesis: the last index [k],
    at least 1, with a quote at [k] and a closing parenthesis at [k + 1].
    [k] counts from the index of [line] in the whole line. *)
Fixpoint last_close (k : nat) (line : jsstring) : option nat :=
  match line with
  | a :: ((b :: _) as line') =>
      match last_close (S k) line' with
      | Some j => Some j
      | None =>
          if is_quote a && (b =? 41)%N && Nat.leb 1 k then Some k else None
      end
  | _ => None
  end.

(** A match at the start of [s] of the pattern for [require]: the word
    [require], an opening parenthesis, a quote, one or more code units of
    one line (as many as possible), a quote and a closing parenthesis.
    The result is the text captured and the text behind the match. *)
Definition match_require (s : jsstring) : option (jsstring * jsstring) :=
  if startsWith s (str "require(") then
    match skipn 8 s with
    | q :: rest =>
        if is_quote q then
          match last_close 0 (line_of rest) with
          | Some k => Some (firstn k rest, skipn (k + 2) rest)
          | None => None
          end
        else None
    | [] => None
    end
  else None.

(** [code.replace(pattern, `import $1`)] with the global pattern for
    [require]. *)
Fixpoint replace_require (fuel : nat) (s : jsstring) : jsstring :=
  match fuel with
  | O => s
  | S fuel' =>
      match s with
      | [] => []
      | c :: s' =>
          match match_require s with
          | Some (captured, rest) =>
              str "import " ++ captured ++ replace_require fuel' rest
          | None => c :: replace_require fuel' s'
          end
      end
  end.

(** [/std::cout << numbers\[i\] << \\n;/g] and its replacement. *)
Definition cout_numbers :=
  [(str "std::cout << numbers[i] << " ++ backslash ++ str "n;",
    str "std::cout << item << " ++ quote ++ backslash ++ str "n" ++ quote
      ++ str ";")].

Definition newline : jsstring := [10%N].

(** The [switch]: the refined code, or the message of the error thrown in
    the [default] case. *)
Definition refineOptimizedCode (code language : jsstring)
  : jsstring + jsstring :=
  if JS.eqb language (str "cpp") then
    let code :=
      when (negb (includes code (str "#include <iostream>")))
        (str "#include <iostream>" ++ newline) code in
    let code :=
      when (negb (includes code (str "#include <array>"))
            && includes code (str "std::array"))
        (str "#include <array>" ++ newline) code in
    let code :=
      when (negb (includes code (str "#include <unordered_set>"))
            && includes code (str "std::unordered_set"))
        (str "#include <unordered_set>" ++ newline) code in
    inr (replaceAll cout_numbers code)
  else if JS.eqb language (str "python") then
    let code :=
      when (negb (includes code (str "import sys"))
            && includes code (str "sys."))
        (str "import sys" ++ newline) code in
    let code :=
      when (negb (includes code (str "import math"))
            && includes code (str "math."))
        (str "import math" ++ newline) code in
    inr code
  else if JS.eqb language (str "java") then
    let code :=
      when (negb (includes code (str "import java.util.*;"))
            && (includes code (str "List") || includes code (str "Set")))
        (str "import java.util.*;" ++ newline) code in
    let code :=
      when (negb (includes code (str "import java.io.*;"))
            && includes code (str "BufferedReader"))
        (str "import java.io.*;" ++ newline) code in
    inr code
  else if JS.eqb language (str "javascript")
          || JS.eqb language (str "typescript") then
    if negb (includes code (str "import")) && includes code (str "require(")
    then inr (replace_require (List.length code) code)
    else inr code
  else if JS.eqb language (str "csharp") then
    let code :=
      when (negb (includes code (str "using System;")))
        (str "using System;" ++ newline) code in
    let code :=
      when (negb (includes code (str "using System.Collections.Generic;"))
            && (includes code (str "List<")
                || includes code (str "Dictionary<")))
        (str "using System.Collections.Generic;" ++ newline) code in
    inr code
  else if JS.eqb language (str "ruby") then
    inr (when (negb (includes code (str "require 'set'"))
               && includes code (str "Set.new"))
           (str "require 'set'" ++ newline) code)
  else if JS.eqb language (str "php") then
    inr (when (negb (includes code (str "<?php")))
           (str "<?php" ++ newline) code)
  else if JS.eqb language (str "swift") then
    inr (when (negb (includes code (str "import Foundation"))
               && includes code (str "DateFormatter"))
           (str "import Foundation" ++ newline) code)
  else if JS.eqb language (str "go") then
    inr (when (negb (includes code (str "import ("))
               && includes code (str "fmt."))
           (str "import " ++ quote ++ str "fmt" ++ quote ++ newline) code)
  else if JS.eqb language (str "rust") then
    inr (when (negb (includes code (str "use std::collections::HashSet;"))
               && includes code (str "HashSet"))
           (str "use std::collections::HashSet;" ++ newline) code)
  else if JS.eqb language (str "c") || JS.eqb language (str "c++") then
    inr (when (negb (includes code (str "#include <stdio.h>"))
               && includes code (str "printf"))
           (str "#include <stdio.h>" ++ newline) code)
  else inl (str "Language not supported").

(** The languages whose case only adds headers. *)
Definition header_only : list jsstring :=
  List.map str
    ["python"; "java"; "csharp"; "ruby"; "php"; "swift"; "go"; "rust"; "c";
     "c++"]%string.

End Refine.

(** ** [validateSyntax] and [traditionalSyntaxCheck] *)

Module Syntax.

Import Str.

Record SyntaxIssue := mkIssue {
  line : Z;
  column : Z;
  message : jsstring;
  severity : jsstring
}.

Record ValidationResult := mkResult {
  isValid : bool;
  issues : list SyntaxIssue;
  rawResponse : option jsstring
}.

Definition valid : ValidationResult := mkResult true [] None.

(** [error] is [Some message] for an instance of [Error]. *)
Definition formatError (error : option jsstring) : ValidationResult :=
  mkResult false
    [mkIssue 1 1
       (match error with
        | Some message => message
        | None => str "Unknown syntax error"
        end)
       (str "error")]
    None.

Definition formatSyntaxError (message : jsstring) : ValidationResult :=
  mkResult false [mkIssue 1 1 message (str "error")] None.

Section Checks.

(** [exec] of the formatter, as in [Format.formatCode_exec]. *)
Variable exec : jsstring -> jsstring -> jsstring + jsstring.

(** [new Function(code)]: [None] when the code parses, or what is thrown. *)
Variable new_Function : jsstring -> option (option jsstring).

(** The answer of the service to the validation prompt, cleaned and parsed:
    [None] when the call or [JSON.parse] throws; otherwise the text of the
    response and [validation.issues], [None] when that is missing. *)
Variable ai_validation :
  jsstring -> jsstring -> option (jsstring * option (list SyntaxIssue)).

Definition traditionalSyntaxCheck (code language : jsstring)
  : ValidationResult :=
  let code := Format.formatCode_exec exec code language in
  if JS.eqb language (str "javascript") || JS.eqb language (str "typescript")
  then
    match new_Function code with
    | None => valid
    | Some error => formatError error
    end
  else if JS.eqb language (str "python") then
    if negb (includes code (str "def "))
       && negb (includes code (str "import "))
       && negb (includes code (str "print("))
    then formatSyntaxError (str "Invalid Python syntax") else valid
  else if JS.eqb language (str "java") then
    if negb (includes code (str "class "))
       || negb (includes code (str "public static void main"))
    then formatSyntaxError (str "Invalid Java syntax") else valid
  else if JS.eqb language (str "cpp") || JS.eqb language (str "c")
          || JS.eqb language (str "c++") then
    if negb (includes code (str "#include"))
       || negb (includes code (str "main()"))
    then formatSyntaxError (str "Invalid C/C++ syntax") else valid
  else if JS.eqb language (str "csharp") then
    if negb (includes code (str "using System;"))
       || negb (includes code (str "class "))
    then formatSyntaxError (str "Invalid C# syntax") else valid
  else if JS.eqb language (str "ruby") then
    if negb (includes code (str "def ")) && negb (includes code (str "puts "))
    then formatSyntaxError (str "Invalid Ruby syntax") else valid
  else if JS.eqb language (str "php") then
    if negb (includes code (str "<?php"))
    then formatSyntaxError (str "PHP code must start with <?php") else valid
  else if JS.eqb language (str "swift") then
    if negb (includes code (str "import "))
       && negb (includes code (str "print("))
    then formatSyntaxError (str "Invalid Swift syntax") else valid
  else if JS.eqb language (str "go") then
    if negb (includes code (str "package main"))
       || negb (includes code (str "func main()"))
    then formatSyntaxError (str "Invalid Go syntax") else valid
  else if JS.eqb language (str "rust") then
    if negb (includes code (str "fn main()"))
    then formatSyntaxError (str "Invalid Rust syntax") else valid
  else formatSyntaxError (str "Unsupported language").

(** [i.severity !== 'error'] *)
Definition not_error (i : SyntaxIssue) : bool :=
  negb (JS.eqb (severity i) (str "error")).

Definition validateSyntax (code language : jsstring) : ValidationResult :=
  match ai_validation code language with
  | Some (responseText, Some (i :: rest)) =>
      mkResult (forallb not_error (i :: rest)) (i :: rest) (Some responseText)
  | Some (_, Some []) => traditionalSyntaxCheck code language
  | Some (_, None) => traditionalSyntaxCheck code language
  | None => traditionalSyntaxCheck code language
  end.

End Checks.

(** The languages [traditionalSyntaxCheck] has a case for. *)
Definition checked : list jsstring :=
  List.map str
    ["javascript"; "typescript"; "python"; "java"; "cpp"; "c"; "c++";
     "csharp"; "ruby"; "php"; "swift"; "go"; "rust"]%string.

End Syntax.

(** ** [refineOptimizedCode], the variant that replaces data structures *)

Module RefineWords.

Import Str.

(** [\w] at an index that may lie outside the text. *)
Definition word_at (c : option N) : bool :=
  match c with
  | Some c => Regex.is_word c
  | None => false
  end.

(** [\b] between two neighbouring code units. *)
Definition boundary (prev next : option N) : bool :=
  xorb (word_at prev) (word_at next).

Definition last_of (s : jsstring) : option N :=
  match rev s with
  | [] => None
  | c :: _ => Some c
  end.

(** [code.replace(/\blit\b/g, rep)] for a literal [lit] that is not empty.
    [prev] is the code unit before [s] in the whole text. *)
Fixpoint replace_word (fuel : nat) (lit rep : jsstring) (prev : option N)
    (s : jsstring) : jsstring :=
  match fuel with
  | O => s
  | S fuel' =>
      match s with
      | [] => []
      | c :: s' =>
          if startsWith s lit
             && boundary prev (Some c)
             && boundary (last_of lit) (hd_error (skipn (List.length lit) s))
          then rep ++ replace_word fuel' lit rep (last_of lit)
                        (skipn (List.length lit) s)
          else c :: replace_word fuel' lit rep (Some c) s'
      end
  end.

(** The lazy [(.*?)\)]: the code units of one line up to the first closing
    parenthesis, and the text behind it. *)
Fixpoint up_to_paren (s : jsstring) : option (jsstring * jsstring) :=
  match s with
  | [] => None
  | c :: s' =>
      if (c =? 41)%N then Some ([], s')
      else if Regex.is_dot c then
        match up_to_paren s' with
        | Some (captured, rest) => Some (c :: captured, rest)
        | None => None
        end
      else None
  end.

(** [code.replace(/\blist\((.*?)\)/g, "set($1)")] *)
Fixpoint replace_list (fuel : nat) (prev : option N) (s : jsstring)
  : jsstring :=
  match fuel with
  | O => s
  | S fuel' =>
      match s with
      | [] => []
      | c :: s' =>
          if startsWith s (str "list(") && boundary prev (Some c) then
            match up_to_paren (skipn 5 s) with
            | Some (captured, rest) =>
                str "set(" ++ captured ++ str ")"
                  ++ replace_list fuel' (Some 41%N) rest
            | None => c :: replace_list fuel' (Some c) s'
            end
          else c :: replace_list fuel' (Some c) s'
      end
  end.

(** Some occurrence of [lit] in [s] is followed by a code unit of [\w]. *)
Fixpoint followed_by_word (lit s : jsstring) : bool :=
  startsWith s lit && word_at (hd_error (skipn (List.length lit) s))
  || match s with
     | [] => false
     | _ :: s' => followed_by_word lit s'
     end.

Definition refineOptimizedCode (code language : jsstring) : jsstring :=
  if JS.eqb language (str "java") then
    replace_word (List.length code) (str "ArrayList") (str "LinkedList")
      None code
  else if JS.eqb language (str "python") then
    if includes code (str "if x in list_name")
    then replace_list (List.length code) None code
    else code
  else if JS.eqb language (str "cpp") then
    replace_word (List.length code) (str "vector<int>")
      (str "unordered_set<int>") None code
  else code.

End RefineWords.

(** ** [extractExplanation] *)

Module Explain.

Import Str.

(** The first occurrence of [needle] in [s]: the text before it and the
    text behind it. *)
Fixpoint find (s needle : jsstring) : option (jsstring * jsstring) :=
  if startsWith s needle then Some ([], skipn (List.length needle) s)
  else
    match s with
    | [] => None
    | c :: s' =>
        match find s' needle with
        | Some (before, behind) => Some (c :: before, behind)
        | None => None
        end
    end.

(** [code.match(/open(.*?)close/s)]: the group captured by the first match,
    for literal delimiters: the text between the first [open] and the first
    [close] behind it. *)
Definition match_between (open close code : jsstring) : option jsstring :=
  match find code open with
  | None => None
  | Some (_, rest) =>
      match find rest close with
      | None => None
      | Some (captured, _) => Some captured
      end
  end.

(** [needle] occurs in [before ++ needle] at its end only. *)
Definition first_at (before needle : jsstring) : Prop :=
  forall a b, before ++ needle = a ++ needle ++ b -> a = before.

Definition triple_quote : jsstring := [34%N; 34%N; 34%N].

Definition block_comment : jsstring * jsstring := (str "/*", str "*/").

(** The delimiters of the pattern of each language. *)
Definition commentPatterns : list (jsstring * (jsstring * jsstring)) :=
  [ (str "python", (triple_quote, triple_quote));
    (str "java", block_comment);
    (str "cpp", block_comment);
    (str "javascript", block_comment);
    (str "csharp", block_comment);
    (str "ruby", (str "=begin", str "=end"));
    (str "php", block_comment);
    (str "swift", block_comment);
    (str "go", block_comment);
    (str "rust", block_comment) ].

Fixpoint lookup (table : list (jsstring * (jsstring * jsstring)))
    (language : jsstring) : option (jsstring * jsstring) :=
  match table with
  | [] => None
  | (key, pattern) :: table' =>
      if JS.eqb key language then Some pattern else lookup table' language
  end.

(** [match ? match[1].trim() : ...] for the pattern with the delimiters
    [pattern], the empty string when there is no match. *)
Definition extract (pattern : jsstring * jsstring) (code : jsstring)
  : jsstring :=
  match match_between (fst pattern) (snd pattern) code with
  | Some captured => JS.trim captured
  | None => []
  end.

Section Engine.

(** [commentPatterns] is a plain object: besides its own ten keys,
    [commentPatterns[language]] finds the members the object inherits from
    [Object.prototype] ([constructor], [toString], [__proto__], ...). Their
    values are truthy, so the default pattern is not taken, and they are no
    patterns: what [code.match] makes of one, and what the last line then
    returns or throws, is decided by the engine. [inherited language] is
    that result for each code when [language] names such a member, and
    [None] when it names none. *)
Variable inherited : jsstring -> option (jsstring -> DiffLib.error + jsstring).

Definition extractExplanation (code language : jsstring)
  : DiffLib.error + jsstring :=
  match lookup commentPatterns language with
  | Some pattern => inr (extract pattern code)
  | None =>
      match inherited language with
      | Some member => member code
      | None => inr (extract block_comment code)
      end
  end.

End Engine.

(** The delimiters that apply to a label that names no inherited member. *)
Definition pattern_of (language : jsstring) : jsstring * jsstring :=
  match lookup commentPatterns language with
  | Some pattern => pattern
  | None => block_comment
  end.

(** An engine for examples: [__proto__] names the prototype itself, which
    as a pattern has no group, so that the last line throws once anything
    matches; no other inherited member is listed. *)
Definition sample_engine (language : jsstring)
  : option (jsstring -> DiffLib.error + jsstring) :=
  if JS.eqb language (str "__proto__")
  then Some (fun _ => inl DiffLib.TypeError)
  else None.

End Explain.

(** ** [generateOptimizationExplanation] *)

Module Explanation.

Import Str.

Definition fence : jsstring := [96%N; 96%N; 96%N].

Definition is_lower (c : N) : bool := ((97 <=? c) && (c <=? 122))%N.

(** [[a-z]*] at the start of [s]: what is left behind it. *)
Fixpoint skip_lower (s : jsstring) : jsstring :=
  match s with
  | [] => []
  | c :: s' => if is_lower c then skip_lower s' else s
  end.

(** A match at the start of [s] of a fence, small letters and a line feed:
    the text behind the match. *)
Definition match_fence_line (s : jsstring) : option jsstring :=
  if startsWith s fence then
    match skip_lower (skipn 3 s) with
    | c :: rest => if (c =? 10)%N then Some rest else None
    | [] => None
    end
  else None.

(** The first [replace] of the chain: every fence that opens a block, with
    its language and its line feed, is removed. *)
Fixpoint remove_fence_lines (fuel : nat) (s : jsstring) : jsstring :=
  match fuel with
  | O => s
  | S fuel' =>
      match s with
      | [] => []
      | c :: s' =>
          match match_fence_line s with
          | Some rest => remove_fence_lines fuel' rest
          | None => c :: remove_fence_lines fuel' s'
          end
      end
  end.

(** The pattern of the second [replace] of the chain: a fence, replaced by
    the empty string. *)
Definition fences : list (jsstring * jsstring) := [(fence, [])].

(** The chain of [replace] and [trim] that removes the Markdown marks. *)
Definition remove_markdown (text : jsstring) : jsstring :=
  JS.trim (replaceAll fences (remove_fence_lines (List.length text) text)).

Definition prompt (originalCode optimizedCode language : jsstring)
  : jsstring :=
  str "
        Explain how the following "
    ++ language
    ++ str " code was optimized by changing data structures. Follow these rules:
        1. Clearly describe the inefficient data structures in the original code.
        2. Explain why the new data structures are more efficient in terms of time and space complexity.
        3. Provide a step-by-step explanation of the changes made.
        4. Use simple, human-readable language.
        5. Ensure the explanation is complete and not truncated.

        Original Code:
        "
    ++ originalCode
    ++ str "

        Optimized Code:
        "
    ++ optimizedCode
    ++ str "

        Explanation:".

Definition fallback : jsstring :=
  str "The code was optimized by replacing inefficient data structures with more efficient ones. For example:
        - Arrays were replaced with hash maps for faster lookups.
        - Linked lists were replaced with arrays for better cache locality.
        - Trees were replaced with graphs for more flexible traversals.".

Section Service.

(** [model.generateContent(prompt)] followed by [result.response.text()]:
    the text of the answer, or [None] when the call throws. *)
Variable generateContent : jsstring -> option jsstring.

Definition generateOptimizationExplanation
    (originalCode optimizedCode language : jsstring) : jsstring :=
  match generateContent (prompt originalCode optimizedCode language) with
  | Some text =>
      let explanation := JS.trim text in
      remove_markdown explanation
  | None => fallback
  end.

End Service.

(** The number of grave accents [s] starts with. *)
Fixpoint lead (s : jsstring) : nat :=
  match s with
  | [] => 0
  | c :: s' => if (c =? 96)%N then S (lead s') else 0
  end.

End Explanation.

(** ** [getOptimizedCode], the variant that asks whether to optimize *)

Module Pipeline.

Import Str.

(** A number of the answer of the service, as a template prints it; the
    model has whole numbers only. *)
Definition number (z : Z) : jsstring := str (NilZero.string_of_int (Z.to_int z)).

(** [lines.join(separator)] *)
Fixpoint join (separator : jsstring) (lines : list jsstring) : jsstring :=
  match lines with
  | [] => []
  | [line] => line
  | line :: lines' => line ++ separator ++ join separator lines'
  end.

Definition optimizationCheckPrompt (language userCode : jsstring) : jsstring :=
  str "
        Analyze the logic and functoinality of the following "
    ++ language
    ++ str " code and determine if it can be optimized by replacing inefficient data structures.
        If not, check if the code has a logic that can be optimised to better time complexity.
        If not , lastly check if code is using inbuilt functions that can be replaced by better time complexity functions in the  "
    ++ language
    ++ str ".
        Again go through the code, there HAS to be something that can be changed to make it more optimal (e.g. replace library functions with written code logic to reduce time complexity)
        Respond ONLY with "
    ++ Refine.quote
    ++ str "Yes"
    ++ Refine.quote
    ++ str " or "
    ++ Refine.quote
    ++ str "No"
    ++ Refine.quote
    ++ str ".

        Code:
        "
    ++ userCode
    ++ str "

        Can it be optimized?:
        ".

Definition optimizationPrompt (language userCode : jsstring) : jsstring :=
  str "
        Optimize the following "
    ++ language
    ++ str " code to achieve the best possible time and space complexity by replacing inefficient data structures. Follow these rules:
        1. Identify all inefficient data structures (e.g., arrays, lists, etc.) in the original code.
        2. Try to understand the logic and usage behind the code and then go ahead to figure out relevant replacements.
        3. Explore multiple replacement options (e.g., hash maps, priority queues, trees, etc.) and select the **best possible** data structure for each case.
        4.If optimising logic, strictly ensure the optimised logic (eg nested for loop -> single for loop), if has a different logic, still gives same required results.
        5.ENsure the selected data structure is the most optimal in terms of:
           - Time complexity (e.g., O(1), O(log n), O(n), etc.)
           - Space complexity (e.g., O(1), O(n), etc.)
           - Problem context (e.g., "
    ++ Refine.quote
    ++ str "Use a Trie for prefix search"
    ++ Refine.quote
    ++ str ").
        6. Ensure the logic and correctness remain unchanged.
        7. Respond ONLY with the **correct and valid** optimized code.
        8. DONT include justification or anything else in code, only give raw code.
        Original Code:
        "
    ++ userCode
    ++ str "

        Optimized Code:".

Definition explanationPrompt (originalCode optimizedCode language : jsstring)
  : jsstring :=
  str "
        Explain how the following "
    ++ language
    ++ str " code was optimized by replacing inefficient data structures with the **best possible alternatives**. Follow these rules:
        1. Clearly describe the inefficient data structures in the original code.(in one sentence)
        2. List all considered replacement options and explain why they were rejected or selected.(in one sentence)
        3. Justify(in short) why the selected data structures are the most optimal in terms of:
           - Time complexity (e.g., O(1), O(log n), O(n), etc.)
           - Space complexity (e.g., O(1), O(n), etc.)
           - Problem context (e.g., "
    ++ Refine.quote
    ++ str "Use a Trie for prefix search"
    ++ Refine.quote
    ++ str ").
        5. Use simple, human-readable language.
        6. Ensure the explanation is complete and not truncated.

        Original Code:
        "
    ++ originalCode
    ++ str "

        Optimized Code:
        "
    ++ optimizedCode
    ++ str "

        Explanation:".

Definition fallback : jsstring :=
  str "The code was optimized by replacing inefficient data structures with the best possible alternatives. For example:
        - Arrays were replaced with hash maps for faster lookups.
        - Linked lists were replaced with arrays for better cache locality.
        - Trees were replaced with graphs for more flexible traversals.".

Definition no_optimizations : jsstring :=
  str "No optimizations were found. The code is already optimal or cannot be further optimized by replacing data structures.".

Section Service.

Variable toLowerCase : jsstring -> jsstring.

(** [model.generateContent(prompt)] followed by [result.response.text()]:
    the message of the [Error] thrown, or the text of the answer. *)
Variable generateText : jsstring -> jsstring + jsstring.

Variable exec : jsstring -> jsstring -> jsstring + jsstring.
Variable new_Function : jsstring -> option (option jsstring).
Variable ai_validation :
  jsstring -> jsstring -> option (jsstring * option (list Syntax.SyntaxIssue)).

(** The service as the functions that catch every error see it. *)
Definition generateContent (prompt : jsstring) : option jsstring :=
  match generateText prompt with
  | inr text => Some text
  | inl _ => None
  end.

Definition generateOptimizationExplanation
    (originalCode optimizedCode language : jsstring) : jsstring :=
  match generateContent (explanationPrompt originalCode optimizedCode language)
  with
  | Some text => Explanation.remove_markdown (JS.trim text)
  | None => fallback
  end.

(** The [catch] block: every error is thrown again behind a prefix. *)
Definition failed (message : jsstring) : jsstring :=
  str "Failed to optimize code: " ++ message.

(** The notifications shown, most recent first, and the message of the
    error thrown or the object returned. *)
Definition getOptimizedCode (userCode : jsstring)
  : list Extension.notification * (jsstring + (jsstring * jsstring)) :=
  let n1 := [Extension.Info (str "Optimization process started...")] in
  let language :=
    AiDetect.detectLanguage toLowerCase generateContent userCode in
  let n2 := Extension.Info (str "Detected Language: " ++ language) :: n1 in
  let validation :=
    Syntax.validateSyntax exec new_Function ai_validation userCode language in
  if negb (Syntax.isValid validation) then
    let issues :=
      join Refine.newline
        (List.map
           (fun i => str "Line " ++ number (Syntax.line i) ++ str ": "
                       ++ Syntax.message i)
           (Syntax.issues validation)) in
    (n2, inl (failed (str "Original code has syntax issues:"
                        ++ Refine.newline ++ issues)))
  else
    match generateText (optimizationCheckPrompt language userCode) with
    | inl message => (n2, inl (failed message))
    | inr answer =>
        let canOptimize :=
          JS.eqb (toLowerCase (JS.trim answer)) (str "yes") in
        if negb canOptimize then
          (Extension.Info
             (str "No optimizations were found for the given code.") :: n2,
           inr (userCode, no_optimizations))
        else
          match generateText (optimizationPrompt language userCode) with
          | inl message => (n2, inl (failed message))
          | inr text =>
              let optimizedCode := JS.trim text in
              let optimizedCode := Explanation.remove_markdown optimizedCode in
              match Refine.refineOptimizedCode optimizedCode language with
              | inl message => (n2, inl (failed message))
              | inr optimizedCode =>
                  let explanation :=
                    generateOptimizationExplanation userCode optimizedCode
                      language in
                  (Extension.Info (str "Optimization complete!") :: n2,
                   inr (optimizedCode, explanation))
              end
          end
    end.

(** The host after the notifications [shown], most recent first, have been
    shown. *)
Definition shows (shown : list Extension.notification) (h : Extension.host)
  : Extension.host :=
  Extension.mkHost (Extension.document h) (Extension.replacements h)
    (shown ++ Extension.notifications h) (Extension.disposed h).

(** The body of the command [dsxpert.optimizeCode] around this
    [getOptimizedCode], up to the point where it waits for the reviewer.
    The progress indicator of [withProgress] is no message and is not
    recorded. *)
Definition optimizeCode (editor : bool) (h : Extension.host)
  : Extension.outcome :=
  if negb editor then
    Extension.Ended
      (Extension.showErrorMessage (str "No active editor found.") h)
  else
    let userCode := Extension.document h in
    let (shown, result) := getOptimizedCode userCode in
    let h1 := shows shown h in
    match result with
    | inl errorMessage =>
        Extension.Ended
          (Extension.showErrorMessage
             (str "Failed to optimize code: " ++ errorMessage) h1)
    | inr (code, explanation) =>
        Extension.Reviewing userCode code explanation h1
    end.

End Service.

(** Services for examples: a service that is out of reach, and one that
    answers [No] to the question whether the code can be optimized and fails
    otherwise; a validator that lists one warning. *)
Definition unreachable (prompt : jsstring) : jsstring + jsstring :=
  inl (str "fetch failed").

Definition answers_no (prompt : jsstring) : jsstring + jsstring :=
  if includes prompt (str "Can it be optimized?") then inr (str "No")
  else inl (str "fetch failed").

Definition one_warning (code language : jsstring)
  : option (jsstring * option (list Syntax.SyntaxIssue)) :=
  Some (str "{}",
        Some [Syntax.mkIssue 1 1 (str "unused variable") (str "warning")]).

Definition no_validation (code language : jsstring)
  : option (jsstring * option (list Syntax.SyntaxIssue)) := None.

End Pipeline.

(** ** The tabs of the review panel *)

Module Tabs.

(** An element of the page that is not a tab button: its [id], whether it
    has the class [tab-content], and its [style.display]. *)
Record element := mkElement {
  id : option jsstring;
  tab_content : bool;
  display : option jsstring
}.

(** A tab button, which has no [id]: its attribute [data-tab] and whether
    its class list holds [active]. *)
Record button := mkButton {
  data_tab : option jsstring;
  active : bool
}.

Record page := mkPage {
  elements : list element;
  buttons : list button
}.

(** [content.style.display = "none"] for the elements of [.tab-content]. *)
Definition hide (e : element) : element :=
  if tab_content e then mkElement (id e) true (Some (str "none")) else e.

(** [btn.classList.remove("active")] *)
Definition deactivate (b : button) : button := mkButton (data_tab b) false.

Definition has_id (tabId : jsstring) (e : element) : bool :=
  match id e with
  | Some i => JS.eqb i tabId
  | None => false
  end.

(** [document.getElementById(tabId).style.display = "block"]: the first
    element with this [id] is shown; [None] when there is none. *)
Fixpoint show_first (tabId : jsstring) (es : list element)
  : option (list element) :=
  match es with
  | [] => None
  | e :: es' =>
      if has_id tabId e
      then Some (mkElement (id e) (tab_content e) (Some (str "block")) :: es')
      else option_map (cons e) (show_first tabId es')
  end.

(** [button.classList.add("active")] for the button at index [i]. *)
Fixpoint activate (i : nat) (bs : list button) : list button :=
  match bs, i with
  | [], _ => []
  | b :: bs', O => mkButton (data_tab b) true :: bs'
  | b :: bs', S i' => b :: activate i' bs'
  end.

(** The [click] listener of the button at index [i]. [getAttribute] gives
    [null] for a missing attribute, which [getElementById] reads as the
    string [null]. *)
Definition click (i : nat) (p : page) : (DiffLib.error + unit) * page :=
  match nth_error (buttons p) i with
  | None => (inr tt, p)
  | Some button =>
      let tabId :=
        match data_tab button with
        | Some t => t
        | None => str "null"
        end in
      let es := List.map hide (elements p) in
      let bs := List.map deactivate (buttons p) in
      match show_first tabId es with
      | None => (inl DiffLib.TypeError, mkPage es bs)
      | Some es' => (inr tt, mkPage es' (activate i bs))
      end
  end.

(** The tab of an element is on display. *)
Definition shown (e : element) : bool :=
  tab_content e
  && match display e with
     | Some d => JS.eqb d (str "block")
     | None => false
     end.

End Tabs.

(** * Properties *)

(** ** Strings *)

Module JSFacts.

Lemma eqb_refl (a : jsstring) : JS.eqb a a = true.
Proof.
  induction a as [|x a IH]; simpl; [reflexivity|].
  now rewrite N.eqb_refl, IH.
Qed.

Lemma eqb_eq (a b : jsstring) : JS.eqb a b = true <-> a = b.
Proof.
  split.
  - revert b; induction a as [|x a IH]; intros [|y b]; simpl; try discriminate.
    + reflexivity.
    + intros H. apply andb_true_iff in H. destruct H as [Hx Hr].
      apply N.eqb_eq in Hx. apply IH in Hr. congruence.
  - intros ->. apply eqb_refl.
Qed.

Lemma eqb_neq (a b : jsstring) : JS.eqb a b = false <-> a <> b.
Proof.
  split.
  - intros H E. apply eqb_eq in E. congruence.
  - intros H. destruct (JS.eqb a b) eqn:E; [|reflexivity].
    apply eqb_eq in E. contradiction.
Qed.

Lemma strict_eq_string_true (v : JS.value) (lit : jsstring) :
  strict_eq_string v lit = true <-> v = VString lit.
Proof.
  destruct v; simpl; try (split; [discriminate | intros H; discriminate H]).
  rewrite eqb_eq. split; intros H; [now subst | now injection H].
Qed.

End JSFacts.

(** ** The review cycle *)

Module ExtensionFacts.

Import Webview Extension JSFacts.

Lemma on_accept (userCode optimized : jsstring) (msg : message) (h : host) :
  command msg = VString (str "accept") ->
  onDidReceiveMessage userCode optimized msg h =
  dispose (showInformationMessage (str "Optimized code accepted!")
             (applyEdit_replace (List.length userCode) optimized h)).
Proof.
  intros H. unfold onDidReceiveMessage. rewrite H. reflexivity.
Qed.

Lemma on_reject (userCode optimized : jsstring) (msg : message) (h : host) :
  command msg = VString (str "reject") ->
  onDidReceiveMessage userCode optimized msg h =
  dispose (showInformationMessage (str "Optimized code rejected.") h).
Proof.
  intros H. unfold onDidReceiveMessage. rewrite H. reflexivity.
Qed.

Lemma on_other (userCode optimized : jsstring) (msg : message) (h : host) :
  command msg <> VString (str "accept") ->
  command msg <> VString (str "reject") ->
  onDidReceiveMessage userCode optimized msg h = h.
Proof.
  intros Ha Hr. unfold onDidReceiveMessage.
  destruct (strict_eq_string (command msg) (str "accept")) eqn:Ea.
  - apply strict_eq_string_true in Ea. contradiction.
  - destruct (strict_eq_string (command msg) (str "reject")) eqn:Er.
    + apply strict_eq_string_true in Er. contradiction.
    + reflexivity.
Qed.

Lemma skipn_length_app (A : Type) (l : list A) : skipn (List.length l) l = [].
Proof. induction l; simpl; auto. Qed.

(** C2, as the specification states it, fails: in the sample cycle the view
    shows [x = 3] when the reviewer accepts, and the handler writes the
    optimized code [x = 2] of its closure. *)
Lemma accept_ignores_displayed_text :
  accept_cycle (str "x = 1") (str "x = 2") sample_edited_dom sample_host <> None
  /\ ~ accept_emits_displayed (str "x = 1") (str "x = 2")
        sample_edited_dom sample_host.
Proof.
  split; [discriminate|].
  intros H. specialize (H _ eq_refl). vm_compute in H. discriminate H.
Qed.

(** C2, amended: on the accept decision the text written back into the
    document is the optimized code held by the handler's closure (the text
    the panel was opened with), whatever text the accept message carries;
    it replaces the leading part of the document as long as the original
    text, hence the whole document when that still holds the original; the
    panel is then disposed. The text written equals the text shown exactly
    when the view shows the optimized code. *)
Theorem accept_emits_optimized_code
    (userCode optimized : jsstring) (msg : message) (h : host) :
  command msg = VString (str "accept") ->
  let h' := onDidReceiveMessage userCode optimized msg h in
  emitted h' = Some optimized
  /\ replacements h' = optimized :: replacements h
  /\ document h' = optimized ++ skipn (List.length userCode) (document h)
  /\ (document h = userCode -> document h' = optimized)
  /\ disposed h' = true
  /\ (forall text,
        onDidReceiveMessage userCode optimized (mkMessage (command msg) text) h
        = h')
  /\ (forall d, fst (Webview.accept d) = inr msg ->
        (accept_emits_displayed userCode optimized d h
         <-> displayed d = Some optimized)).
Proof.
  intros Hc h'. subst h'. rewrite (on_accept _ _ _ _ Hc). simpl.
  split; [reflexivity|]. split; [reflexivity|]. split; [reflexivity|].
  split; [|split; [reflexivity|split]].
  - intros ->. rewrite skipn_length_app. apply app_nil_r.
  - intros text. now rewrite on_accept.
  - intros d Hposted. unfold accept_emits_displayed, accept_cycle.
    rewrite Hposted, (on_accept _ _ _ _ Hc). split.
    + intros Hd. symmetry. exact (Hd _ eq_refl).
    + intros Hd h' Hcy. injection Hcy as <-. now symmetry.
Qed.

Lemma accept_emits_optimized_code_witness :
  emitted
    (onDidReceiveMessage (str "x = 1") (str "x = 2")
       (mkMessage (VString (str "accept")) (VString (str "x = 3"))) sample_host)
  = Some (str "x = 2")
  /\ document
       (onDidReceiveMessage (str "x = 1") (str "x = 2")
          (mkMessage (VString (str "accept")) (VString (str "x = 3")))
          sample_host)
     = str "x = 2".
Proof.
  pose proof (accept_emits_optimized_code (str "x = 1") (str "x = 2")
                (mkMessage (VString (str "accept")) (VString (str "x = 3")))
                sample_host eq_refl) as (He & _ & _ & Hd & _).
  split; [exact He | apply Hd; reflexivity].
Defined.

Lemma optimizeCode_keeps_document
    (getOptimizedCode : jsstring -> jsstring + (jsstring * jsstring))
    (editor : bool) (h : host) :
  document (host_of (optimizeCode getOptimizedCode editor h)) = document h
  /\ replacements (host_of (optimizeCode getOptimizedCode editor h))
     = replacements h.
Proof.
  unfold optimizeCode. destruct editor; simpl; [|split; reflexivity].
  destruct (getOptimizedCode (document h)) as [e | [c x]]; split; reflexivity.
Qed.

(** C5: the reject decision emits no replacement and leaves the text of the
    document as it was, for every original and optimized text and every
    state of the host; the command itself never writes to the document
    before a decision, and when the optimization attempt fails (the call of
    [getOptimizedCode] throws) it ends with an error notification, without
    a review panel, the document and the list of replacements untouched. *)
Theorem reject_or_failure_keeps_original
    (getOptimizedCode : jsstring -> jsstring + (jsstring * jsstring))
    (userCode optimized : jsstring) (h : host) :
  (forall msg, command msg = VString (str "reject") ->
     let h' := onDidReceiveMessage userCode optimized msg h in
     document h' = document h /\ replacements h' = replacements h
     /\ disposed h' = true)
  /\ (forall editor,
        let o := optimizeCode getOptimizedCode editor h in
        document (host_of o) = document h
        /\ replacements (host_of o) = replacements h)
  /\ (forall errorMessage,
        getOptimizedCode (document h) = inl errorMessage ->
        optimizeCode getOptimizedCode true h =
        Ended (showErrorMessage
                 (str "Failed to optimize code: " ++ errorMessage) h)).
Proof.
  split; [|split].
  - intros msg Hc h'. subst h'. rewrite (on_reject _ _ _ _ Hc).
    repeat split.
  - intros editor. apply optimizeCode_keeps_document.
  - intros e He. unfold optimizeCode. simpl. now rewrite He.
Qed.

Lemma reject_or_failure_keeps_original_witness :
  document
    (onDidReceiveMessage (str "x = 1") (str "x = 2")
       (mkMessage (VString (str "reject")) VUndefined) sample_host)
  = str "x = 1"
  /\ optimizeCode (fun _ => inl (str "service unavailable")) true sample_host
     = Ended (showErrorMessage
                (str "Failed to optimize code: service unavailable")
                sample_host).
Proof.
  pose proof (reject_or_failure_keeps_original
                (fun _ => inl (str "service unavailable"))
                (str "x = 1") (str "x = 2") sample_host) as (Hr & _ & Hf).
  split.
  - exact (proj1 (Hr (mkMessage (VString (str "reject")) VUndefined) eq_refl)).
  - exact (Hf (str "service unavailable") eq_refl).
Defined.

(** C8: the handler acts on two messages only. The script posts
    [{command: "accept", code: <text shown>}] and [{command: "reject"}]; on
    the first the handler applies the edit, notifies and disposes the panel,
    on the second it notifies and disposes the panel; for a message whose
    command is neither, the state of the host is returned as it was: no
    replacement, no notification, no disposal. *)
Theorem handler_acts_on_accept_and_reject_only
    (userCode optimized : jsstring) (msg : message) (h : host) :
  (forall d children, optimized_code d = Some children ->
     Webview.accept d
     = (inr (mkMessage (VString (str "accept")) (VString (innerText children))),
        d))
  /\ (forall d, Webview.reject d
               = (inr (mkMessage (VString (str "reject")) VUndefined), d))
  /\ (command msg = VString (str "accept") ->
      onDidReceiveMessage userCode optimized msg h =
      dispose (showInformationMessage (str "Optimized code accepted!")
                 (applyEdit_replace (List.length userCode) optimized h)))
  /\ (command msg = VString (str "reject") ->
      onDidReceiveMessage userCode optimized msg h =
      dispose (showInformationMessage (str "Optimized code rejected.") h))
  /\ (command msg <> VString (str "accept") ->
      command msg <> VString (str "reject") ->
      onDidReceiveMessage userCode optimized msg h = h)
  /\ (onDidReceiveMessage userCode optimized msg h <> h ->
      command msg = VString (str "accept")
      \/ command msg = VString (str "reject")).
Proof.
  repeat split.
  - intros d children Hd. unfold Webview.accept. now rewrite Hd.
  - apply on_accept.
  - apply on_reject.
  - apply on_other.
  - intros Hne. unfold onDidReceiveMessage in Hne.
    destruct (strict_eq_string (command msg) (str "accept")) eqn:Ea.
    + left. now apply strict_eq_string_true.
    + destruct (strict_eq_string (command msg) (str "reject")) eqn:Er.
      * right. now apply strict_eq_string_true.
      * now contradiction Hne.
Qed.

Lemma handler_acts_on_accept_and_reject_only_witness :
  onDidReceiveMessage (str "x = 1") (str "x = 2")
    (mkMessage (VString (str "save")) (VString (str "x = 3"))) sample_host
  = sample_host
  /\ onDidReceiveMessage (str "x = 1") (str "x = 2")
       (mkMessage VUndefined VUndefined) sample_host
     = sample_host.
Proof.
  pose proof (handler_acts_on_accept_and_reject_only (str "x = 1") (str "x = 2")
                (mkMessage (VString (str "save")) (VString (str "x = 3")))
                sample_host) as (_ & _ & _ & _ & Hsave & _).
  pose proof (handler_acts_on_accept_and_reject_only (str "x = 1") (str "x = 2")
                (mkMessage VUndefined VUndefined) sample_host)
    as (_ & _ & _ & _ & Hundefined & _).
  split.
  - apply Hsave; simpl; intros H; vm_compute in H; discriminate H.
  - apply Hundefined; simpl; discriminate.
Defined.

End ExtensionFacts.

(** ** The line diff *)

Module DiffFacts.

Import DiffLib JSFacts.

Lemma tokenize_from_concat (text cur : jsstring) :
  List.concat (tokenize_from cur text) = cur ++ text.
Proof.
  revert cur. induction text as [|c text IH]; intros cur; simpl.
  - destruct cur; simpl; now rewrite ?app_nil_r.
  - destruct (c =? 10)%N; simpl; rewrite IH; simpl;
      now rewrite <- app_assoc.
Qed.

Lemma tokenize_concat (text : jsstring) : List.concat (tokenize text) = text.
Proof. apply (tokenize_from_concat text []). Qed.

Lemma tokenize_nonempty (text : jsstring) : text <> [] -> tokenize text <> [].
Proof.
  intros Hne Ht. apply Hne. rewrite <- (tokenize_concat text), Ht. reflexivity.
Qed.

Lemma tokens_eqb_eq (a b : list jsstring) : tokens_eqb a b = true <-> a = b.
Proof.
  split.
  - revert b. induction a as [|x a IH]; intros [|y b]; simpl;
      try discriminate; [reflexivity|].
    intros H. apply andb_true_iff in H. destruct H as [Hx Hr].
    apply eqb_eq in Hx. apply IH in Hr. congruence.
  - intros <-. induction a as [|x a IH]; simpl; [reflexivity|].
    now rewrite eqb_refl, IH.
Qed.

Lemma kind_eqb_eq (a b : kind) : kind_eqb a b = true <-> a = b.
Proof. destruct a, b; simpl; split; congruence. Qed.

Lemma kind_of_segment (k : kind) (text : jsstring) : kind_of (segment k text) = k.
Proof. now destruct k. Qed.

Lemma value_segment (k : kind) (text : jsstring) : value (segment k text) = text.
Proof. now destruct k. Qed.

Lemma lcs_script_cons (x y : jsstring) (old new : list jsstring) :
  lcs_script (x :: old) (y :: new) =
  if JS.eqb x y then (Unchanged, y) :: lcs_script old new
  else
    let del := (Removed, x) :: lcs_script old (y :: new) in
    let ins := (Added, y) :: lcs_script (x :: old) new in
    if Nat.leb (common ins) (common del) then del else ins.
Proof. reflexivity. Qed.

Lemma lcs_script_nil_r (old : list jsstring) :
  lcs_script old [] = List.map (pair Removed) old.
Proof. now destruct old. Qed.

Lemma side_map_pair (P : kind -> bool) (k : kind) (l : list jsstring) :
  side P (List.map (pair k) l) = if P k then l else [].
Proof.
  unfold side. induction l as [|x l IH]; simpl.
  - now destruct (P k).
  - destruct (P k) eqn:E; simpl; rewrite IH; now rewrite ?E.
Qed.

Lemma side_cons (P : kind -> bool) (k : kind) (line : jsstring)
    (script : list (kind * jsstring)) :
  side P ((k, line) :: script) =
  if P k then line :: side P script else side P script.
Proof. unfold side. simpl. now destruct (P k). Qed.

Lemma side_ext (P Q : kind -> bool) (script : list (kind * jsstring)) :
  (forall k, P k = Q k) -> side P script = side Q script.
Proof.
  intros H. unfold side. f_equal. apply filter_ext. intros e. apply H.
Qed.

(** The edit script keeps the lines of the original text, in order. *)
Lemma lcs_script_old (old new : list jsstring) :
  side in_old (lcs_script old new) = old.
Proof.
  revert new. induction old as [|x old IH]; intros new.
  - simpl. now rewrite side_map_pair.
  - induction new as [|y new IHn].
    + rewrite lcs_script_nil_r. now rewrite side_map_pair.
    + rewrite lcs_script_cons. destruct (JS.eqb x y) eqn:E.
      * apply eqb_eq in E. subst y. rewrite side_cons.
        change (in_old Unchanged) with true. cbv iota. now rewrite IH.
      * cbv zeta. destruct (Nat.leb _ _); rewrite side_cons.
        -- change (in_old Removed) with true. cbv iota. now rewrite IH.
        -- change (in_old Added) with false. cbv iota. exact IHn.
Qed.

(** The edit script keeps the lines of the modified text, in order. *)
Lemma lcs_script_new (old new : list jsstring) :
  side in_new (lcs_script old new) = new.
Proof.
  revert new. induction old as [|x old IH]; intros new.
  - simpl. now rewrite side_map_pair.
  - induction new as [|y new IHn].
    + rewrite lcs_script_nil_r. now rewrite side_map_pair.
    + rewrite lcs_script_cons. destruct (JS.eqb x y) eqn:E.
      * rewrite side_cons. change (in_new Unchanged) with true. cbv iota.
        now rewrite IH.
      * cbv zeta. destruct (Nat.leb _ _); rewrite side_cons.
        -- change (in_new Removed) with false. cbv iota. apply IH.
        -- change (in_new Added) with true. cbv iota. now rewrite IHn.
Qed.

(** Two equal texts share every line. *)
Lemma lcs_script_same (lines : list jsstring) :
  lcs_script lines lines = List.map (pair Unchanged) lines.
Proof.
  induction lines as [|x lines IH]; [reflexivity|].
  rewrite lcs_script_cons, eqb_refl, IH. reflexivity.
Qed.

(** Joining lines into runs keeps the text of every kind. *)
Lemma group_side (P : kind -> bool) (script : list (kind * jsstring)) :
  List.concat
    (List.map value (List.filter (fun c => P (kind_of c)) (group script)))
  = List.concat (side P script).
Proof.
  induction script as [|[k line] script IH]; [reflexivity|].
  rewrite side_cons.
  assert (Hone : forall text rest,
    List.concat (List.map value
      (List.filter (fun c => P (kind_of c)) (segment k text :: rest)))
    = (if P k then text else [])
      ++ List.concat (List.map value
           (List.filter (fun c => P (kind_of c)) rest))).
  { intros text rest. simpl. rewrite kind_of_segment.
    destruct (P k); simpl; now rewrite ?value_segment. }
  assert (Hgoal :
    List.concat (if P k then line :: side P script else side P script)
    = (if P k then line else []) ++ List.concat (side P script))
    by (now destruct (P k)).
  etransitivity; [|symmetry; exact Hgoal]. rewrite <- IH. clear Hgoal IH.
  simpl. destruct (group script) as [|c cs].
  - apply Hone.
  - destruct (kind_eqb k (kind_of c)) eqn:E.
    + apply kind_eqb_eq in E. rewrite Hone. simpl. rewrite <- E.
      destruct (P k); simpl; [now rewrite app_assoc | reflexivity].
    + apply Hone.
Qed.

(** Lines of one kind form one run. *)
Lemma group_one_kind (k : kind) (lines : list jsstring) :
  lines <> [] ->
  group (List.map (pair k) lines) = [segment k (List.concat lines)].
Proof.
  induction lines as [|x lines IH]; [congruence|]. intros _.
  destruct lines as [|y lines].
  - simpl. now rewrite app_nil_r.
  - change (group (List.map (pair k) (x :: y :: lines)))
      with (match group (List.map (pair k) (y :: lines)) with
            | [] => [segment k x]
            | c :: cs =>
                if kind_eqb k (kind_of c) then segment k (x ++ value c) :: cs
                else segment k x :: c :: cs
            end).
    rewrite IH by discriminate.
    rewrite kind_of_segment, value_segment.
    replace (kind_eqb k k) with true by (now destruct k). reflexivity.
Qed.

Lemma text_of_group (kinds : list kind) (script : list (kind * jsstring)) :
  text_of kinds (group script)
  = List.concat (side (fun k => existsb (kind_eqb k) kinds) script).
Proof. unfold text_of. apply (group_side (fun k => existsb (kind_eqb k) kinds)). Qed.

(** The runs are maximal. *)
Lemma group_runs_maximal (script : list (kind * jsstring)) :
  runs_maximal (group script).
Proof.
  induction script as [|[k line] script IH]; [exact I|].
  simpl. destruct (group script) as [|c cs]; [exact I|].
  destruct (kind_eqb k (kind_of c)) eqn:E.
  - apply kind_eqb_eq in E. destruct cs as [|c' cs]; [exact I|].
    destruct IH as [Hne IH]. split; [|exact IH].
    now rewrite kind_of_segment, E.
  - split; [|exact IH]. rewrite kind_of_segment. intros Hk.
    rewrite <- Hk in E. now destruct k.
Qed.

Lemma common_side (script : list (kind * jsstring)) :
  common script = List.length (side is_unchanged script).
Proof.
  induction script as [|[k line] script IH]; [reflexivity|].
  rewrite side_cons. destruct k; simpl; now rewrite IH.
Qed.

Lemma side_subseq (P Q : kind -> bool) (script : list (kind * jsstring)) :
  (forall k, P k = true -> Q k = true) ->
  Subseq (side P script) (side Q script).
Proof.
  intros H. induction script as [|[k line] script IH]; [constructor|].
  rewrite !side_cons. destruct (P k) eqn:E.
  - rewrite (H k E). now constructor.
  - destruct (Q k); [now constructor | exact IH].
Qed.

(** The unchanged lines of the edit script are lines of both texts, in the
    order of both. *)
Lemma lcs_script_common (old new : list jsstring) :
  Subseq (side is_unchanged (lcs_script old new)) old
  /\ Subseq (side is_unchanged (lcs_script old new)) new.
Proof.
  split.
  - rewrite <- (lcs_script_old old new) at 2.
    apply side_subseq. now intros [].
  - rewrite <- (lcs_script_new old new) at 2.
    apply side_subseq. now intros [].
Qed.

Lemma subseq_tail (x : jsstring) (c l : list jsstring) :
  Subseq (x :: c) l -> Subseq c l.
Proof.
  intros H. remember (x :: c) as xc eqn:E. revert x c E.
  induction H as [l | y c' l H IH | y c' l H IH]; intros x c E.
  - discriminate.
  - injection E as -> ->. now constructor.
  - constructor. now apply (IH x).
Qed.

Lemma subseq_nil_r (c : list jsstring) : Subseq c [] -> c = [].
Proof. intros H. now inversion H. Qed.

(** No sequence of lines of both texts is longer than the unchanged part of
    the edit script: the script is a longest-common-subsequence diff. *)
Lemma lcs_script_longest (old new c : list jsstring) :
  Subseq c old -> Subseq c new ->
  List.length c <= common (lcs_script old new).
Proof.
  revert new c. induction old as [|x old IHo]; intros new c Ho Hn.
  - apply subseq_nil_r in Ho. subst c. apply Nat.le_0_l.
  - revert c Ho Hn. induction new as [|y new IHn]; intros c Ho Hn.
    + apply subseq_nil_r in Hn. subst c. apply Nat.le_0_l.
    + rewrite lcs_script_cons. destruct (JS.eqb x y) eqn:E.
      * apply eqb_eq in E. subst y.
        change (common ((Unchanged, x) :: lcs_script old new))
          with (S (common (lcs_script old new))).
        inversion Ho as [l | z c' l Ho' | z c' l Ho']; subst.
        -- apply Nat.le_0_l.
        -- simpl. apply le_n_S. apply IHo; [exact Ho'|].
           inversion Hn as [l | z c'' l Hn' | z c'' l Hn']; subst;
             [exact Hn' | now apply subseq_tail with x].
        -- inversion Hn as [l | z c'' l Hn' | z c'' l Hn']; subst.
           ++ apply Nat.le_0_l.
           ++ simpl. apply le_n_S.
              apply IHo; [now apply subseq_tail with x | exact Hn'].
           ++ apply Nat.le_le_succ_r. now apply IHo.
      * cbv zeta.
        assert (Hmax : List.length c <= common (lcs_script old (y :: new))
                       \/ List.length c <= common (lcs_script (x :: old) new)).
        { inversion Ho as [l | z c' l Ho' | z c' l Ho']; subst.
          - left. apply Nat.le_0_l.
          - inversion Hn as [l | z c'' l Hn' | z c'' l Hn']; subst.
            + rewrite eqb_refl in E. discriminate.
            + right. now apply IHn.
          - left. now apply IHo. }
        change (common ((Removed, x) :: lcs_script old (y :: new)))
          with (common (lcs_script old (y :: new))).
        change (common ((Added, y) :: lcs_script (x :: old) new))
          with (common (lcs_script (x :: old) new)).
        destruct (Nat.leb (common (lcs_script (x :: old) new))
                          (common (lcs_script old (y :: new)))) eqn:L.
        -- apply Nat.leb_le in L.
           change (common ((Removed, x) :: lcs_script old (y :: new)))
             with (common (lcs_script old (y :: new))). lia.
        -- apply Nat.leb_gt in L.
           change (common ((Added, y) :: lcs_script (x :: old) new))
             with (common (lcs_script (x :: old) new)). lia.
Qed.

(** The scenario of the specification. *)
Example diffLines_scenario :
  diffLines (str "x = 1
y = 2
") (str "x = 1
z = 3
y = 2
")
  = [segment Unchanged (str "x = 1
");
     segment Added (str "z = 3
");
     segment Unchanged (str "y = 2
")].
Proof. vm_compute. reflexivity. Qed.

(** C1: for every pair of texts, the diff returns a segment sequence; the
    text of its unchanged and added segments, in sequence order, is the
    modified text, and the text of its unchanged and removed segments, in
    sequence order, is the original text. *)
Theorem diffLines_reconstructs (original modified : jsstring) :
  exists segments,
    MediaDiff.diffLines (VString original) (VString modified) = inr segments
    /\ text_of [Unchanged; Added] segments = modified
    /\ text_of [Unchanged; Removed] segments = original.
Proof.
  unfold MediaDiff.diffLines, diffLines_value, diffLines.
  eexists. split; [reflexivity|].
  destruct (tokens_eqb (tokenize original) (tokenize modified)) eqn:E.
  - apply tokens_eqb_eq in E.
    assert (original = modified) as ->
        by (rewrite <- (tokenize_concat original), E; apply tokenize_concat).
    unfold text_of. simpl. now rewrite app_nil_r, tokenize_concat.
  - rewrite !text_of_group. split.
    + rewrite (side_ext _ in_new) by (now intros []).
      now rewrite lcs_script_new, tokenize_concat.
    + rewrite (side_ext _ in_old) by (now intros []).
      now rewrite lcs_script_old, tokenize_concat.
Qed.

(** C3: the diff of a text with itself, the empty text included, is exactly
    one segment, unchanged, that holds the text; for a text that is not
    empty, the partition into runs gives this same single segment. *)
Theorem diffLines_identical (text : jsstring) :
  MediaDiff.diffLines (VString text) (VString text)
  = inr [mkChange text false false]
  /\ (text <> [] ->
      group (lcs_script (tokenize text) (tokenize text))
      = [mkChange text false false]).
Proof.
  split.
  - unfold MediaDiff.diffLines, diffLines_value, diffLines.
    replace (tokens_eqb (tokenize text) (tokenize text)) with true
      by (symmetry; now apply tokens_eqb_eq).
    now rewrite tokenize_concat.
  - intros Hne. rewrite lcs_script_same.
    rewrite group_one_kind by (now apply tokenize_nonempty).
    now rewrite tokenize_concat.
Qed.

Lemma diffLines_identical_witness :
  group (lcs_script (tokenize (str "x = 1")) (tokenize (str "x = 1")))
  = [mkChange (str "x = 1") false false].
Proof.
  exact (proj2 (diffLines_identical (str "x = 1"))
           ltac:(intros H; vm_compute in H; discriminate H)).
Defined.

(** C4: when the original text is empty and the modified text is not, the
    diff is one added segment that holds the modified text; when the
    modified text is empty and the original is not, it is one removed
    segment that holds the original text. *)
Theorem diffLines_one_side_empty (text : jsstring) :
  text <> [] ->
  MediaDiff.diffLines (VString []) (VString text)
  = inr [mkChange text true false]
  /\ MediaDiff.diffLines (VString text) (VString [])
     = inr [mkChange text false true].
Proof.
  intros Hne. pose proof (tokenize_nonempty Hne) as Ht.
  unfold MediaDiff.diffLines, diffLines_value, diffLines.
  change (tokenize []) with (@nil jsstring).
  destruct (tokenize text) as [|l ls] eqn:E; [congruence|].
  split.
  - change (tokens_eqb [] (l :: ls)) with false. cbv iota.
    change (lcs_script [] (l :: ls)) with (List.map (pair Added) (l :: ls)).
    rewrite group_one_kind by discriminate.
    rewrite <- E, tokenize_concat. reflexivity.
  - change (tokens_eqb (l :: ls) []) with false. cbv iota.
    rewrite lcs_script_nil_r.
    rewrite group_one_kind by discriminate.
    rewrite <- E, tokenize_concat. reflexivity.
Qed.

Lemma diffLines_one_side_empty_witness :
  MediaDiff.diffLines (VString []) (VString (str "x = 1"))
  = inr [mkChange (str "x = 1") true false]
  /\ MediaDiff.diffLines (VString (str "x = 1")) (VString [])
     = inr [mkChange (str "x = 1") false true].
Proof.
  apply (diffLines_one_side_empty (text := str "x = 1")). discriminate.
Defined.

End DiffFacts.

(** ** The rendering of the review panel *)

Module WebviewFacts.

Import DiffLib Webview.

Local Open Scope script_scope.

Lemma forEach_appendChild (diff : list change) (original : option jsstring)
    (children : list span) :
  forEach (fun part => appendChild (make_span part)) diff
    (mkDom original (Some children))
  = (inr tt, mkDom original (Some (children ++ List.map make_span diff))).
Proof.
  revert children. induction diff as [|part diff IH]; intros children.
  - simpl. unfold ret. now rewrite app_nil_r.
  - simpl. unfold bind, appendChild. simpl. rewrite IH.
    now rewrite <- app_assoc.
Qed.

Lemma render_found (diff : list change) (d : dom) (children : list span) :
  optimized_code d = Some children ->
  render diff d
  = (inr tt, mkDom (original_code d) (Some (List.map make_span diff))).
Proof.
  intros H. unfold render, bind, clear_optimized_code. rewrite H.
  apply forEach_appendChild.
Qed.

Lemma render_not_found (diff : list change) (d : dom) :
  optimized_code d = None -> render diff d = (inl TypeError, d).
Proof.
  intros H. unfold render, bind, clear_optimized_code. now rewrite H.
Qed.

Lemma highlightChanges_text (a b : jsstring) (d : dom) :
  highlightChanges (VString a) (VString b) d = render (diffLines a b) d.
Proof. reflexivity. Qed.

Lemma diffLines_value_error (a b : JS.value) :
  is_text a = false \/ is_text b = false ->
  MediaDiff.diffLines a b = inl InputError.
Proof.
  intros [H | H]; destruct a, b; simpl in H; try discriminate; reflexivity.
Qed.

Lemma render_twice (diff : list change) (d : dom) :
  render diff (snd (render diff d)) = render diff d.
Proof.
  destruct (optimized_code d) as [children|] eqn:E.
  - rewrite (render_found diff d E). simpl.
    now rewrite (render_found diff (mkDom (original_code d) _) eq_refl).
  - rewrite (render_not_found diff d E). simpl.
    now apply render_not_found.
Qed.

Lemma innerText_make_span (diff : list change) :
  innerText (List.map make_span diff) = List.concat (List.map value diff).
Proof.
  unfold innerText. now rewrite map_map.
Qed.

(** After the rendering the view shows the text of every segment, the
    removed ones included. *)
Lemma rendered_view_shows_every_segment (diff : list change) (d : dom)
    (children : list span) :
  optimized_code d = Some children ->
  Extension.displayed (snd (render diff d))
  = Some (List.concat (List.map value diff)).
Proof.
  intros E. rewrite (render_found diff d E). unfold Extension.displayed.
  simpl. now rewrite innerText_make_span.
Qed.

(** A review cycle without any edit by the reviewer: the panel is opened on
    the original [x = 1] and the optimized code [x = 2], the script renders
    the diff, the reviewer accepts. The view shows the removed line and the
    added line; the handler writes the optimized code. *)
Example accept_after_rendering :
  let original := str "x = 1
" in
  let optimized := str "x = 2
" in
  let page := mkDom (Some original) (Some [mkSpan optimized []]) in
  let shown := snd (onDOMContentLoaded page) in
  Extension.displayed shown = Some (original ++ optimized)
  /\ option_map Extension.emitted
       (Extension.accept_cycle original optimized shown
          (Extension.mkHost original [] [] false))
     = Some (Some optimized).
Proof. vm_compute. split; reflexivity. Qed.

(** C6: when one of the two inputs is not text, the diff fails with an
    [InputError], [highlightChanges] ends with that error and the page is
    left as it was; on two texts the diff returns a segment sequence. *)
Theorem diff_rejects_what_is_not_text (originalCode optimizedCode : JS.value)
    (d : dom) :
  (is_text originalCode = false \/ is_text optimizedCode = false ->
   MediaDiff.diffLines originalCode optimizedCode = inl InputError
   /\ highlightChanges originalCode optimizedCode d = (inl InputError, d))
  /\ (is_text originalCode = true -> is_text optimizedCode = true ->
      exists segments,
        MediaDiff.diffLines originalCode optimizedCode = inr segments).
Proof.
  split.
  - intros H. pose proof (diffLines_value_error _ _ H) as E.
    split; [exact E|]. unfold highlightChanges, bind, lift. now rewrite E.
  - intros Ha Hb. destruct originalCode; try discriminate.
    destruct optimizedCode; try discriminate.
    eexists. reflexivity.
Qed.

Lemma diff_rejects_what_is_not_text_witness :
  highlightChanges VUndefined (VString (str "x = 2"))
    (mkDom (Some (str "x = 1")) (Some []))
  = (inl InputError, mkDom (Some (str "x = 1")) (Some []))
  /\ exists segments,
       MediaDiff.diffLines (VString (str "x = 1")) (VString (str "x = 2"))
       = inr segments.
Proof.
  pose proof (diff_rejects_what_is_not_text VUndefined (VString (str "x = 2"))
                (mkDom (Some (str "x = 1")) (Some []))) as [Hbad _].
  pose proof (diff_rejects_what_is_not_text (VString (str "x = 1"))
                (VString (str "x = 2")) (mkDom None None)) as [_ Hgood].
  split.
  - apply Hbad. left. reflexivity.
  - apply Hgood; reflexivity.
Defined.

(** C7: rendering a segment sequence on a page that has been rendered with
    it gives the same result and the same page as rendering it once. Every
    segment becomes one element with the text of the segment and exactly one
    class: [hl-added] for an added segment, [hl-removed] for a removed one,
    [hl-unchanged] otherwise; the three classes differ. Rendering changes
    nothing of the page but the children of [#optimized-code]. *)
Theorem render_idempotent (diff : list change) (d : dom) :
  render diff (snd (render diff d)) = render diff d
  /\ (forall originalCode optimizedCode,
        highlightChanges originalCode optimizedCode
          (snd (highlightChanges originalCode optimizedCode d))
        = highlightChanges originalCode optimizedCode d)
  /\ (forall children, optimized_code d = Some children ->
        optimized_code (snd (render diff d)) = Some (List.map make_span diff))
  /\ original_code (snd (render diff d)) = original_code d
  /\ (forall part,
        textContent (make_span part) = value part
        /\ classList (make_span part)
           = [match kind_of part with
              | Added => str "hl-added"
              | Removed => str "hl-removed"
              | Unchanged => str "hl-unchanged"
              end])
  /\ str "hl-added" <> str "hl-removed"
  /\ str "hl-added" <> str "hl-unchanged"
  /\ str "hl-removed" <> str "hl-unchanged".
Proof.
  split; [|split; [|split; [|split; [|split]]]].
  - apply render_twice.
  - intros a b. unfold highlightChanges, bind, lift.
    destruct (MediaDiff.diffLines a b) as [e|segments]; simpl.
    + reflexivity.
    + destruct (render segments d) as [r d'] eqn:E.
      pose proof (render_twice segments d) as Ht.
      rewrite E in Ht. exact Ht.
  - intros children E. now rewrite (render_found diff d E).
  - destruct (optimized_code d) as [children|] eqn:E.
    + now rewrite (render_found diff d E).
    + now rewrite (render_not_found diff d E).
  - intros part. split; [reflexivity|].
    unfold make_span, kind_of. simpl.
    destruct (added part); [reflexivity|]. now destruct (removed part).
  - repeat split; discriminate.
Qed.

Lemma render_idempotent_witness :
  optimized_code
    (snd (render [mkChange (str "x = 2") true false]
            (mkDom (Some (str "x = 1")) (Some []))))
  = Some [mkSpan (str "x = 2") [str "hl-added"]].
Proof.
  pose proof (render_idempotent [mkChange (str "x = 2") true false]
                (mkDom (Some (str "x = 1")) (Some []))) as (_ & _ & Hshown & _).
  exact (Hshown [] eq_refl).
Defined.

End WebviewFacts.

(** ** The formatter *)

Module FormatFacts.

Import Format JSFacts.

(** Both variants of [formatCode] return the code as it was given when the
    language has no command (any language but [javascript] and [typescript]
    for the prettier variant, the [default] case of the [switch] for the
    variant that runs a command) and when the command fails; when the
    command succeeds they return what it printed. *)
Theorem formatCode_formatted_or_unchanged
    (prettier_format : jsstring -> jsstring + jsstring)
    (exec : jsstring -> jsstring -> jsstring + jsstring)
    (code language : jsstring) :
  (formatCode prettier_format code language = code
   \/ prettier_format code = inr (formatCode prettier_format code language))
  /\ (language <> str "javascript" -> language <> str "typescript" ->
      formatCode prettier_format code language = code)
  /\ (forall error, prettier_format code = inl error ->
      formatCode prettier_format code language = code)
  /\ (formatCode_exec exec code language = code
      \/ exists command stdout,
           formatter_command language = Some command
           /\ exec command code = inr stdout
           /\ formatCode_exec exec code language = JS.trim stdout)
  /\ (formatter_command language = None ->
      formatCode_exec exec code language = code)
  /\ (forall command error,
        formatter_command language = Some command ->
        exec command code = inl error ->
        formatCode_exec exec code language = code)
  /\ (forall formatted,
        language = str "javascript" \/ language = str "typescript" ->
        prettier_format code = inr formatted ->
        formatCode prettier_format code language = formatted)
  /\ (forall command stdout,
        formatter_command language = Some command ->
        exec command code = inr stdout ->
        formatCode_exec exec code language = JS.trim stdout).
Proof.
  split; [|split; [|split; [|split; [|split; [|split; [|split]]]]]].
  - unfold formatCode.
    destruct (JS.eqb language (str "javascript")
              || JS.eqb language (str "typescript")); [|now left].
    destruct (prettier_format code) as [e|f]; [now left | now right].
  - intros Hj Ht. unfold formatCode.
    apply eqb_neq in Hj. apply eqb_neq in Ht. now rewrite Hj, Ht.
  - intros e He. unfold formatCode. rewrite He.
    now destruct (JS.eqb language (str "javascript")
                  || JS.eqb language (str "typescript")).
  - unfold formatCode_exec.
    destruct (formatter_command language) as [command|]; [|now left].
    destruct (exec command code) as [e|stdout] eqn:E; [now left|].
    right. now exists command, stdout.
  - intros H. unfold formatCode_exec. now rewrite H.
  - intros command e Hc He. unfold formatCode_exec. now rewrite Hc, He.
  - intros formatted Hl Hf. unfold formatCode. rewrite Hf.
    destruct Hl as [-> | ->]; reflexivity.
  - intros command stdout Hc He. unfold formatCode_exec. now rewrite Hc, He.
Qed.

Lemma formatCode_formatted_or_unchanged_witness :
  formatCode (fun _ => inl (str "SyntaxError")) (str "x = (") (str "javascript")
  = str "x = ("
  /\ formatCode (fun c => inr (c ++ str ";")) (str "x = 1") (str "kotlin")
     = str "x = 1"
  /\ formatCode_exec (fun _ _ => inl (str "ENOENT")) (str "x = 1") (str "python")
     = str "x = 1"
  /\ formatCode_exec (fun _ c => inr c) (str "x = 1") (str "kotlin")
     = str "x = 1".
Proof.
  pose proof (formatCode_formatted_or_unchanged
                (fun _ => inl (str "SyntaxError"))
                (fun _ _ => inl (str "ENOENT"))
                (str "x = (") (str "javascript")) as (_ & _ & Hthrow & _).
  pose proof (formatCode_formatted_or_unchanged
                (fun c => inr (c ++ str ";")) (fun _ c => inr c)
                (str "x = 1") (str "kotlin")) as (_ & Hnone & _ & _ & Hdefault & _).
  pose proof (formatCode_formatted_or_unchanged
                (fun _ => inl (str "SyntaxError"))
                (fun _ _ => inl (str "ENOENT"))
                (str "x = 1") (str "python"))
    as (_ & _ & _ & _ & _ & Hfail & _).
  split; [|split; [|split]].
  - exact (Hthrow (str "SyntaxError") eq_refl).
  - apply Hnone; intros H; vm_compute in H; discriminate H.
  - exact (Hfail (str "black -q -") (str "ENOENT") eq_refl eq_refl).
  - exact (Hdefault eq_refl).
Defined.

(** C9: for the labels [ruby] and [php] the [switch] of [formatCode] picks
    [ruby -c] and [php -l], which check the syntax and print a report, no
    code. Whenever such a command succeeds, [formatCode] returns its report,
    trimmed: for the Ruby program [puts 1] it returns [Syntax OK], which is
    neither the program as given nor a formatted program. *)
Theorem formatCode_returns_checker_report :
  (forall exec code stdout,
     exec (str "ruby -c") code = inr stdout ->
     formatCode_exec exec code (str "ruby") = JS.trim stdout)
  /\ (forall exec code stdout,
       exec (str "php -l") code = inr stdout ->
       formatCode_exec exec code (str "php") = JS.trim stdout)
  /\ formatter_command (str "ruby") = Some (str "ruby -c")
  /\ formatCode_exec ruby_installed (str "puts 1") (str "ruby")
     = str "Syntax OK"
  /\ formatCode_exec ruby_installed (str "puts 1") (str "ruby")
     <> str "puts 1".
Proof.
  split; [|split; [|split; [|split]]].
  - intros exec code stdout H. unfold formatCode_exec.
    change (formatter_command (str "ruby")) with (Some (str "ruby -c")).
    cbv beta iota. now rewrite H.
  - intros exec code stdout H. unfold formatCode_exec.
    change (formatter_command (str "php")) with (Some (str "php -l")).
    cbv beta iota. now rewrite H.
  - reflexivity.
  - vm_compute. reflexivity.
  - intros H. vm_compute in H. discriminate H.
Qed.

End FormatFacts.

(** ** The matcher and the words of a pattern *)

Module RegexFacts.

Import Regex.

Lemma nullable_Matches (r : regex) : nullable r = true <-> Matches r [].
Proof.
  split.
  - induction r as [| |p|r1 IH1 r2 IH2|r1 IH1 r2 IH2|r IH]; simpl; intros H;
      try discriminate.
    + constructor.
    + apply andb_true_iff in H. destruct H as [H1 H2].
      change (@nil N) with (@nil N ++ @nil N). constructor; auto.
    + apply orb_true_iff in H. destruct H as [H | H];
        [apply MAltL | apply MAltR]; auto.
    + constructor.
  - intros H. remember (@nil N) as u eqn:E.
    induction H as [|p c Hp|r1 r2 u v H1 IH1 H2 IH2|r1 r2 u H IH|r1 r2 u H IH
                    |r|r u v H1 IH1 H2 IH2]; simpl; try reflexivity.
    + discriminate.
    + apply app_eq_nil in E. destruct E as [-> ->].
      now rewrite IH1, IH2.
    + now rewrite IH.
    + rewrite IH by assumption. apply orb_true_r.
Qed.

Lemma deriv_sound (c : N) (r : regex) (u : jsstring) :
  Matches (deriv c r) u -> Matches r (c :: u).
Proof.
  revert u.
  induction r as [| |p|r1 IH1 r2 IH2|r1 IH1 r2 IH2|r IH]; simpl; intros u H.
  - inversion H.
  - inversion H.
  - destruct (p c) eqn:E; inversion H; subst. now constructor.
  - destruct (nullable r1) eqn:E.
    + inversion H as [| | | ? ? ? HL | ? ? ? HR | |]; subst.
      * inversion HL as [| |? ? u1 u2 H1 H2| | | |]; subst.
        change (c :: u1 ++ u2) with ((c :: u1) ++ u2). constructor; auto.
      * change (c :: u) with ([] ++ c :: u).
        constructor; [now apply nullable_Matches | auto].
    + inversion H as [| |? ? u1 u2 H1 H2| | | |]; subst.
      change (c :: u1 ++ u2) with ((c :: u1) ++ u2). constructor; auto.
  - inversion H; subst; [apply MAltL | apply MAltR]; auto.
  - inversion H as [| |? ? u1 u2 H1 H2| | | |]; subst.
    change (c :: u1 ++ u2) with ((c :: u1) ++ u2). constructor; auto.
Qed.

Lemma deriv_complete (c : N) (r : regex) (u : jsstring) :
  Matches r (c :: u) -> Matches (deriv c r) u.
Proof.
  intros H. remember (c :: u) as w eqn:E. revert u E.
  induction H as [|p c' Hp|r1 r2 u1 v H1 IH1 H2 IH2|r1 r2 u1 H IH|r1 r2 u1 H IH
                  |r|r u1 v H1 IH1 H2 IH2]; intros u E; simpl.
  - discriminate.
  - injection E as -> <-. rewrite Hp. constructor.
  - destruct u1 as [|c1 u1]; simpl in E.
    + subst v. apply nullable_Matches in H1. rewrite H1.
      apply MAltR. now apply IH2.
    + injection E as -> <-.
      assert (Matches (Cat (deriv c r1) r2) (u1 ++ v))
        by (constructor; auto).
      destruct (nullable r1); [now apply MAltL | assumption].
  - apply MAltL. now apply IH.
  - apply MAltR. now apply IH.
  - discriminate.
  - destruct u1 as [|c1 u1]; simpl in E.
    + now apply IH2.
    + injection E as -> <-. constructor; auto.
Qed.

(** [match_here] finds the patterns that match a prefix of the text. *)
Lemma match_here_spec (r : regex) (text : jsstring) :
  match_here r text = true <->
  exists u v, text = u ++ v /\ Matches r u.
Proof.
  revert r. induction text as [|c text IH]; intros r; simpl.
  - rewrite orb_false_r, nullable_Matches. split.
    + intros H. now exists [], [].
    + intros (u & v & E & H). symmetry in E. apply app_eq_nil in E.
      now destruct E as [-> _].
  - rewrite orb_true_iff, nullable_Matches, IH. split.
    + intros [H | (u & v & E & H)].
      * now exists [], (c :: text).
      * exists (c :: u), v. split; [now rewrite E | now apply deriv_sound].
    + intros (u & v & E & H). destruct u as [|c' u]; [now left|].
      right. injection E as <- E. exists u, v.
      split; [assumption | now apply deriv_complete].
Qed.

(** [test] finds the patterns that match a part of the text. *)
Lemma test_spec (r : regex) (text : jsstring) :
  test r text = true <->
  exists before u after, text = before ++ u ++ after /\ Matches r u.
Proof.
  induction text as [|c text IH]; simpl.
  - rewrite orb_false_r. change (nullable r || false) with (match_here r []).
    rewrite match_here_spec. split.
    + intros (u & v & E & H). now exists [], u, v.
    + intros (b & u & v & E & H). destruct b; [|discriminate].
      now exists u, v.
  - rewrite orb_true_iff, IH.
    change (nullable r || match_here (deriv c r) text)
      with (match_here r (c :: text)).
    rewrite match_here_spec. split.
    + intros [(u & v & E & H) | (b & u & v & E & H)].
      * now exists [], u, v.
      * exists (c :: b), u, v. split; [now rewrite E | assumption].
    + intros (b & u & v & E & H). destruct b as [|c' b].
      * left. now exists u, v.
      * right. injection E as <- E. now exists b, u, v.
Qed.

Lemma Matches_seq_app (rs1 rs2 : list regex) (u : jsstring) :
  Matches (seq (rs1 ++ rs2)) u ->
  exists u1 u2, u = u1 ++ u2 /\ Matches (seq rs1) u1 /\ Matches (seq rs2) u2.
Proof.
  revert u. induction rs1 as [|r rs1 IH]; intros u H; simpl in *.
  - exists [], u. repeat split; [constructor | assumption].
  - inversion H as [| |? ? v w Hv Hw| | | |]; subst.
    destruct (IH _ Hw) as (u1 & u2 & -> & H1 & H2).
    exists (v ++ u1), u2. rewrite app_assoc.
    repeat split; [now constructor | assumption].
Qed.

End RegexFacts.

(** ** The language detector *)

Module DetectFacts.

Import Regex Detect.

Lemma first_match_label (entries : list (jsstring * regex)) (code : jsstring) :
  In (first_match entries code) (List.map fst entries ++ [str "unknown"]).
Proof.
  induction entries as [|[lang pattern] entries IH]; simpl.
  - now left.
  - destruct (test pattern code); [now left | now right].
Qed.

Lemma first_match_first (before after : list (jsstring * regex))
    (lang : jsstring) (pattern : regex) (code : jsstring) :
  test pattern code = true ->
  (forall l p, In (l, p) before -> test p code = false) ->
  first_match (before ++ (lang, pattern) :: after) code = lang.
Proof.
  intros Hm. induction before as [|[l p] before IH]; intros Hb; simpl.
  - now rewrite Hm.
  - rewrite (Hb l p) by now left.
    apply IH. intros l' p' Hin. apply (Hb l' p'). now right.
Qed.

Lemma first_match_none (entries : list (jsstring * regex)) (code : jsstring) :
  (forall l p, In (l, p) entries -> test p code = false) ->
  first_match entries code = str "unknown".
Proof.
  induction entries as [|[l p] entries IH]; intros H; simpl; [reflexivity|].
  rewrite (H l p) by now left.
  apply IH. intros l' p' Hin. apply (H l' p'). now right.
Qed.

(** What the python pattern matches begins with a match of the ruby
    pattern: a text the first one accepts is accepted by both. *)
Lemma python_pattern_within_ruby (code : jsstring) :
  test python_pattern code = true -> test ruby_pattern code = true.
Proof.
  rewrite !RegexFacts.test_spec. intros (b & u & a & E & H).
  change python_pattern
    with (seq ([lit (str "def"); Plus s; Plus w] ++ [Star s; lit (str "(")]))
    in H.
  apply RegexFacts.Matches_seq_app in H.
  destruct H as (u1 & u2 & -> & H1 & _).
  exists b, u1, (u2 ++ a). split.
  - now rewrite E, <- app_assoc.
  - now apply MAltL.
Qed.

(** C10: [detectLanguage] returns, for every text, one of the eleven labels
    python, java, cpp, javascript, csharp, ruby, php, swift, go, rust and
    unknown; the patterns are tried in this order and the label of the first
    one that matches is returned, unknown when none matches; so a text that
    the python pattern matches is labelled python, also when the ruby
    pattern matches it too. *)
Theorem detectLanguage_first_match (code : jsstring) :
  In (detectLanguage code) labels
  /\ List.map fst languagePatterns
     = List.map str ["python"; "java"; "cpp"; "javascript"; "csharp"; "ruby";
                     "php"; "swift"; "go"; "rust"]%string
  /\ (forall before lang pattern after,
        languagePatterns = before ++ (lang, pattern) :: after ->
        test pattern code = true ->
        (forall l p, In (l, p) before -> test p code = false) ->
        detectLanguage code = lang)
  /\ ((forall l p, In (l, p) languagePatterns -> test p code = false) ->
      detectLanguage code = str "unknown")
  /\ (test python_pattern code = true -> test ruby_pattern code = true ->
      detectLanguage code = str "python").
Proof.
  split; [|split; [|split; [|split]]].
  - apply (first_match_label languagePatterns code).
  - reflexivity.
  - intros before lang pattern after E Hm Hb. unfold detectLanguage.
    rewrite E. now apply first_match_first.
  - apply first_match_none.
  - intros Hp _. unfold detectLanguage, languagePatterns. simpl.
    now rewrite Hp.
Qed.

Lemma detectLanguage_first_match_witness :
  detectLanguage (str "def area(r):") = str "python"
  /\ detectLanguage (str "class Shape") = str "ruby".
Proof.
  pose proof (detectLanguage_first_match (str "def area(r):"))
    as (_ & _ & _ & _ & Hpython).
  pose proof (detectLanguage_first_match (str "class Shape"))
    as (_ & _ & Hfirst & _).
  split.
  - apply Hpython; vm_compute; reflexivity.
  - apply (Hfirst (firstn 5 languagePatterns) (str "ruby") ruby_pattern
             (skipn 6 languagePatterns)).
    + reflexivity.
    + vm_compute; reflexivity.
    + intros l p Hin. simpl in Hin.
      repeat (destruct Hin as [Hin | Hin];
              [injection Hin as <- <-; vm_compute; reflexivity|]).
      contradiction.
Defined.

End DetectFacts.

(** ** String methods *)

Module StrFacts.

Import Str.

Lemma startsWith_spec (s p : jsstring) :
  startsWith s p = true <-> exists t, s = p ++ t.
Proof.
  revert s. induction p as [|x p IH]; intros s; simpl.
  - split; [intros _; now exists s | reflexivity].
  - destruct s as [|y s].
    + split; [discriminate | intros [t E]; discriminate].
    + rewrite andb_true_iff, N.eqb_eq, IH. split.
      * intros [-> [t ->]]. now exists t.
      * intros [t E]. injection E as -> ->. split; [reflexivity | now exists t].
Qed.

Lemma startsWith_app (p t : jsstring) : startsWith (p ++ t) p = true.
Proof. apply startsWith_spec. now exists t. Qed.

Lemma includes_spec (s needle : jsstring) :
  includes s needle = true <-> exists a b, s = a ++ needle ++ b.
Proof.
  induction s as [|c s IH]; simpl.
  - rewrite orb_false_r, startsWith_spec. split.
    + intros [t E]. now exists [], t.
    + intros (a & b & E). destruct a; [now exists b | discriminate].
  - rewrite orb_true_iff, startsWith_spec, IH. split.
    + intros [[t E] | (a & b & E)].
      * now exists [], t.
      * exists (c :: a), b. now rewrite E.
    + intros (a & b & E). destruct a as [|c' a].
      * left. now exists b.
      * right. injection E as _ E. now exists a, b.
Qed.

Lemma includes_app (a s b needle : jsstring) :
  includes s needle = true -> includes (a ++ s ++ b) needle = true.
Proof.
  rewrite !includes_spec. intros (x & y & ->).
  exists (a ++ x), (y ++ b). now rewrite <- !app_assoc.
Qed.

Lemma includes_prepend (a s needle : jsstring) :
  includes s needle = true -> includes (a ++ s) needle = true.
Proof.
  intros H. rewrite <- (app_nil_r s). now apply includes_app.
Qed.

Lemma includes_self_prefix (needle t : jsstring) :
  includes (needle ++ t) needle = true.
Proof. apply includes_spec. now exists [], t. Qed.

Lemma includes_cons_false (c : N) (s needle : jsstring) :
  includes (c :: s) needle = false -> includes s needle = false.
Proof. simpl. intros H. apply orb_false_iff in H. apply H. Qed.

Lemma first_alt_Some (alts : list (jsstring * jsstring)) (s lit rep : jsstring) :
  first_alt alts s = Some (lit, rep) ->
  In (lit, rep) alts /\ startsWith s lit = true.
Proof.
  induction alts as [|[l r] alts IH]; simpl; [discriminate|].
  destruct (startsWith s l) eqn:E.
  - intros H. injection H as <- <-. split; [now left | assumption].
  - intros H. destruct (IH H) as [Hin Hs]. split; [now right | assumption].
Qed.

Lemma first_alt_nil (alts : list (jsstring * jsstring)) :
  literals_nonempty alts -> first_alt alts [] = None.
Proof.
  intros Hne. destruct (first_alt alts []) as [[lit rep]|] eqn:E; [|reflexivity].
  apply first_alt_Some in E. destruct E as [Hin Hs].
  destruct lit as [|x lit]; [now elim (Hne _ _ Hin) | discriminate].
Qed.

Lemma skipn_shorter (lit : jsstring) (c : N) (s : jsstring) :
  lit <> [] ->
  List.length (skipn (List.length lit) (c :: s)) <= List.length s.
Proof.
  intros H. destruct lit as [|x lit]; [congruence|]. simpl.
  rewrite length_skipn. lia.
Qed.

Lemma replace_fuel_enough (alts : list (jsstring * jsstring)) :
  literals_nonempty alts ->
  forall n m s, List.length s <= n -> List.length s <= m ->
  replace_fuel n alts s = replace_fuel m alts s.
Proof.
  intros Hne. induction n as [|n IH]; intros m s Hn Hm.
  - destruct s; [|simpl in Hn; lia]. now destruct m.
  - destruct s as [|c s]; [now destruct m|].
    destruct m as [|m]; [simpl in Hm; lia|]. simpl in Hn, Hm.
    cbn [replace_fuel].
    destruct (first_alt alts (c :: s)) as [[lit rep]|] eqn:E.
    + f_equal. apply first_alt_Some in E. destruct E as [Hin _].
      pose proof (skipn_shorter c s (Hne _ _ Hin)).
      apply IH; lia.
    + f_equal. apply IH; lia.
Qed.

Lemma replaceAll_nil (alts : list (jsstring * jsstring)) :
  replaceAll alts [] = [].
Proof. reflexivity. Qed.

Lemma replaceAll_match (alts : list (jsstring * jsstring))
    (c : N) (s lit rep : jsstring) :
  literals_nonempty alts ->
  first_alt alts (c :: s) = Some (lit, rep) ->
  replaceAll alts (c :: s)
  = rep ++ replaceAll alts (skipn (List.length lit) (c :: s)).
Proof.
  intros Hne E. unfold replaceAll. cbn [List.length replace_fuel].
  rewrite E. f_equal. apply first_alt_Some in E. destruct E as [Hin _].
  pose proof (skipn_shorter c s (Hne _ _ Hin)).
  apply replace_fuel_enough; auto.
Qed.

Lemma replaceAll_skip (alts : list (jsstring * jsstring)) (c : N) (s : jsstring) :
  first_alt alts (c :: s) = None ->
  replaceAll alts (c :: s) = c :: replaceAll alts s.
Proof.
  intros E. unfold replaceAll. cbn [List.length replace_fuel]. now rewrite E.
Qed.

(** When no replacement text is part of the result, nothing was replaced
    and no alternative occurs in the text. *)
Lemma replaceAll_no_trace (alts : list (jsstring * jsstring)) (result : jsstring) :
  literals_nonempty alts ->
  (forall lit rep, In (lit, rep) alts -> includes result rep = false) ->
  forall s, replaceAll alts s = result -> s = result /\ occurs alts s = false.
Proof.
  intros Hne Hrep s. revert result Hrep.
  induction s as [|c s IH]; intros result Hrep E.
  - rewrite replaceAll_nil in E. subst result. split; [reflexivity|].
    cbn [occurs]. now rewrite (first_alt_nil Hne).
  - destruct (first_alt alts (c :: s)) as [[lit rep]|] eqn:F.
    + rewrite (replaceAll_match c s Hne F) in E.
      pose proof (proj1 (first_alt_Some _ _ F)) as Hin.
      specialize (Hrep _ _ Hin). rewrite <- E in Hrep.
      now rewrite includes_self_prefix in Hrep.
    + rewrite replaceAll_skip in E by exact F. subst result.
      destruct (IH (replaceAll alts s)) as [Hs Ho].
      * intros lit rep Hin. apply includes_cons_false with c.
        now apply (Hrep lit rep).
      * reflexivity.
      * split; [now rewrite <- Hs at 1|]. cbn [occurs]. now rewrite F.
Qed.

End StrFacts.

(** ** The first extension host *)

Module ExtensionJsFacts.

Import Str ExtensionJs.

Lemma falsy_cons (text : jsstring) : text <> [] -> falsy text = false.
Proof. destruct text; [congruence | reflexivity]. Qed.

Lemma document_kept (e : editor) (h h' : host) :
  activeTextEditor h = Some e -> activeTextEditor h' = Some e ->
  document h' = document h.
Proof. unfold document. now intros -> ->. Qed.



End ExtensionJsFacts.

(** ** The extension host that asks through a quick pick *)

Module QuickPickFacts.

Import Str ExtensionJs QuickPick.

(** X2: in the variant that asks through a quick pick, when some code is
    selected, the optimized code is not empty and does not contain [Error],
    and the reviewer picks [Accept Changes], the selection is replaced by
    exactly that code, the rest of the document is kept and the explanation
    has been shown. Any other pick, a dismissed pick included, leaves the
    document as it was, and so does every other case. *)
Theorem quick_pick_writes_only_on_accept
    (getOptimizedCode : jsstring -> jsstring * jsstring)
    (choice : option jsstring) (h : host) :
  (forall e,
     choice = Some (str "Accept Changes") ->
     activeTextEditor h = Some e ->
     selection e <> [] ->
     fst (getOptimizedCode (selection e)) <> [] ->
     includes (fst (getOptimizedCode (selection e))) (str "Error") = false ->
     optimizeCode getOptimizedCode choice h
     = showInformationMessage (str "Code optimized successfully!")
         (edit_replace e (fst (getOptimizedCode (selection e)))
            (showExplanationWebview (snd (getOptimizedCode (selection e)))
               (showInformationMessage (str "Optimizing code...") h)))
     /\ document (optimizeCode getOptimizedCode choice h)
        = Some (before e ++ fst (getOptimizedCode (selection e)) ++ after e))
  /\ (choice <> Some (str "Accept Changes") ->
      document (optimizeCode getOptimizedCode choice h) = document h)
  /\ (document (optimizeCode getOptimizedCode choice h) = document h
      \/ exists e,
           activeTextEditor h = Some e
           /\ choice = Some (str "Accept Changes")
           /\ selection e <> []
           /\ fst (getOptimizedCode (selection e)) <> []
           /\ includes (fst (getOptimizedCode (selection e))) (str "Error")
              = false).
Proof.
  split.
  { intros e -> He Hs Hc Hi.
    assert (E : optimizeCode getOptimizedCode (Some (str "Accept Changes")) h
                = showInformationMessage (str "Code optimized successfully!")
                    (edit_replace e (fst (getOptimizedCode (selection e)))
                       (showExplanationWebview
                          (snd (getOptimizedCode (selection e)))
                          (showInformationMessage
                             (str "Optimizing code...") h)))).
    { unfold optimizeCode. rewrite He.
      rewrite (ExtensionJsFacts.falsy_cons Hs).
      destruct (getOptimizedCode (selection e)) as [code explanation].
      cbn [fst snd] in *.
      rewrite (ExtensionJsFacts.falsy_cons Hc), Hi. reflexivity. }
    split; [exact E|]. rewrite E. reflexivity. }
  unfold optimizeCode.
  destruct (activeTextEditor h) as [e|] eqn:He;
    [|split; [intros _|left]; unfold document; simpl; now rewrite He].
  destruct (falsy (selection e)) eqn:Hsel;
    [split; [intros _|left]; unfold document; simpl; now rewrite He|].
  destruct (getOptimizedCode (selection e)) as [optimizedCode explanation]
    eqn:Hg.
  destruct (falsy optimizedCode || includes optimizedCode (str "Error"))
    eqn:Hbad;
    [split; [intros _|left]; unfold document; simpl; now rewrite He|].
  apply orb_false_iff in Hbad. destruct Hbad as [Hf Hi].
  destruct choice as [picked|];
    [|split; [intros _|left]; unfold document; simpl; now rewrite He].
  destruct (JS.eqb picked (str "Accept Changes")) eqn:Hp.
  - apply JSFacts.eqb_eq in Hp. subst picked. split; [congruence|].
    right. exists e. rewrite Hg. simpl. repeat split; try assumption.
    + intros E. rewrite E in Hsel. discriminate Hsel.
    + intros ->. discriminate.
  - split; [intros _|left]; unfold document; simpl; now rewrite He.
Qed.

Lemma quick_pick_writes_only_on_accept_witness :
  document
    (optimizeCode (fun _ => (str "x = 2", str "faster"))
       (Some (str "Accept Changes"))
       (mkHost (Some (mkEditor (str "a;") (str "x = 1") (str "c;"))) [] []))
  = Some (str "a;x = 2c;")
  /\ document
       (optimizeCode (fun _ => (str "x = 2", str "faster")) None
          (mkHost (Some (mkEditor (str "a;") (str "x = 1") (str "c;")))
             [] []))
     = Some (str "a;x = 1c;").
Proof.
  pose proof (quick_pick_writes_only_on_accept
                (fun _ => (str "x = 2", str "faster"))
                (Some (str "Accept Changes"))
                (mkHost (Some (mkEditor (str "a;") (str "x = 1") (str "c;")))
                   [] [])) as [Hwrite _].
  pose proof (quick_pick_writes_only_on_accept
                (fun _ => (str "x = 2", str "faster")) None
                (mkHost (Some (mkEditor (str "a;") (str "x = 1") (str "c;")))
                   [] [])) as (_ & Hkeep & _).
  split.
  - refine (proj2 (Hwrite (mkEditor (str "a;") (str "x = 1") (str "c;"))
                     eq_refl eq_refl _ _ eq_refl)); discriminate.
  - apply Hkeep. discriminate.
Defined.

End QuickPickFacts.

(** ** The retry loop *)

Module RetryFacts.

Import Retry.

Section Loop.

Variable A : Type.
Variable body : nat -> jsstring + A.
Variable retries : Z.

Lemma loop_exit (fuel attempts : nat) :
  (retries <= Z.of_nat attempts)%Z ->
  loop body retries fuel attempts = Some (attempts, inl Unexpected).
Proof.
  intros H. destruct fuel; simpl;
    (replace (Z.of_nat attempts <? retries)%Z with false
      by (symmetry; apply Z.ltb_ge; lia)); reflexivity.
Qed.

(** With enough fuel the loop ends; it runs the block at most [retries]
    times and, once entered, never reaches the statement behind it. *)
Lemma loop_total (fuel attempts : nat) :
  (retries <= Z.of_nat attempts + Z.of_nat fuel)%Z ->
  (Z.of_nat attempts < retries)%Z ->
  exists runs outcome,
    loop body retries fuel attempts = Some (runs, outcome)
    /\ (Z.of_nat runs <= retries)%Z
    /\ attempts < runs
    /\ outcome <> inl Unexpected.
Proof.
  revert attempts. induction fuel as [|fuel IH]; intros attempts Hf Hlt.
  - lia.
  - cbn [loop].
    replace (Z.of_nat attempts <? retries)%Z with true
      by (symmetry; apply Z.ltb_lt; lia).
    destruct (body attempts) as [e|r].
    + cbv zeta. destruct (Z.of_nat (S attempts) >=? retries)%Z eqn:G.
      * exists (S attempts), (inl (FailedAfter retries e)).
        repeat split; [lia | lia | discriminate].
      * assert (Z.of_nat (S attempts) < retries)%Z by
          (rewrite Z.geb_leb in G; apply Z.leb_gt in G; lia).
        destruct (IH (S attempts)) as (runs & o & E & Hr & Ha & Ho);
          [lia | lia |].
        exists runs, o. repeat split; [assumption | lia | lia | assumption].
    + exists (S attempts), (inr r).
      repeat split; [lia | lia | discriminate].
Qed.

(** The first run that returns ends the loop. *)
Lemma loop_success (n : nat) (result : A) :
  (Z.of_nat n < retries)%Z ->
  body n = inr result ->
  forall fuel attempts,
    attempts <= n -> n < attempts + fuel ->
    (forall m, attempts <= m -> m < n -> exists e, body m = inl e) ->
    loop body retries fuel attempts = Some (S n, inr result).
Proof.
  intros Hn Hb. induction fuel as [|fuel IH]; intros attempts Ha Hf Hfail.
  - lia.
  - cbn [loop].
    replace (Z.of_nat attempts <? retries)%Z with true
      by (symmetry; apply Z.ltb_lt; lia).
    destruct (Nat.eq_dec attempts n) as [->|Hne].
    + now rewrite Hb.
    + destruct (Hfail attempts) as [e He]; [lia | lia |].
      rewrite He. cbv zeta.
      replace (Z.of_nat (S attempts) >=? retries)%Z with false
        by (symmetry; rewrite Z.geb_leb; apply Z.leb_gt; lia).
      apply IH; [lia | lia |].
      intros m Hm1 Hm2. apply Hfail; lia.
Qed.

(** When every run throws, the loop gives up behind run [retries]. *)
Lemma loop_failure (last : jsstring) :
  (0 < retries)%Z ->
  body (Z.to_nat retries - 1) = inl last ->
  forall fuel attempts,
    (Z.of_nat attempts < retries)%Z ->
    (retries <= Z.of_nat attempts + Z.of_nat fuel)%Z ->
    (forall m, attempts <= m -> (Z.of_nat m < retries)%Z ->
               exists e, body m = inl e) ->
    loop body retries fuel attempts
    = Some (Z.to_nat retries, inl (FailedAfter retries last)).
Proof.
  intros Hpos Hlast. induction fuel as [|fuel IH]; intros attempts Ha Hf Hfail.
  - lia.
  - cbn [loop].
    replace (Z.of_nat attempts <? retries)%Z with true
      by (symmetry; apply Z.ltb_lt; lia).
    destruct (Hfail attempts) as [e He]; [lia | lia |].
    rewrite He. cbv zeta.
    destruct (Z.of_nat (S attempts) >=? retries)%Z eqn:G.
    + rewrite Z.geb_leb in G. apply Z.leb_le in G.
      assert (Heq : attempts = Z.to_nat retries - 1) by lia.
      rewrite <- Heq in Hlast. rewrite Hlast in He. injection He as <-.
      repeat f_equal. lia.
    + rewrite Z.geb_leb in G. apply Z.leb_gt in G.
      apply IH; [lia | lia |].
      intros m Hm1 Hm2. apply Hfail; lia.
Qed.

End Loop.

(** X3: the retry loop of [getOptimizedCode] always ends. It runs the [try]
    block at most [retries] times. The first run that returns ends it with
    that result; when all [retries] runs throw, it throws [Failed after
    retries attempts] with the message of the last run; the [Unexpected
    error] behind the loop is thrown exactly when [retries] is not
    positive, and then the block is never run. *)
Theorem getOptimizedCode_retries
    (A : Type) (body : nat -> jsstring + A) (retries : Z) :
  (exists runs outcome,
     getOptimizedCode body retries = Some (runs, outcome)
     /\ (Z.of_nat runs <= Z.max 0 retries)%Z
     /\ (outcome = inl Unexpected <-> (retries <= 0)%Z))
  /\ ((retries <= 0)%Z ->
      getOptimizedCode body retries = Some (0, inl Unexpected))
  /\ (forall n result,
        (Z.of_nat n < retries)%Z ->
        body n = inr result ->
        (forall m, m < n -> exists e, body m = inl e) ->
        getOptimizedCode body retries = Some (S n, inr result))
  /\ (forall last,
        (0 < retries)%Z ->
        (forall m, (Z.of_nat m < retries)%Z -> exists e, body m = inl e) ->
        body (Z.to_nat retries - 1) = inl last ->
        getOptimizedCode body retries
        = Some (Z.to_nat retries, inl (FailedAfter retries last))).
Proof.
  unfold getOptimizedCode. split; [|split; [|split]].
  - destruct (Z_lt_le_dec 0 retries) as [Hpos|Hle].
    + destruct (@loop_total A body retries (Z.to_nat retries) 0)
        as (runs & o & E & Hr & _ & Ho); [lia | lia |].
      exists runs, o. split; [assumption|]. split; [lia|].
      split; [intros ->; now elim Ho | lia].
    + exists 0, (inl Unexpected).
      rewrite loop_exit by (simpl; lia).
      split; [reflexivity|]. split; [simpl; lia|]. split; [now intros _ | reflexivity].
  - intros Hle. apply loop_exit. simpl. lia.
  - intros n r Hn Hb Hfail.
    apply loop_success; [assumption | assumption | lia | lia |].
    intros m _ Hm. now apply Hfail.
  - intros last Hpos Hfail Hlast.
    apply loop_failure; [assumption | assumption | lia | lia |].
    intros m _ Hm. now apply Hfail.
Qed.

Lemma getOptimizedCode_retries_witness :
  getOptimizedCode
    (fun n => if Nat.eqb n 2 then inr (str "x = 2") else inl (str "busy")) 3
  = Some (3, inr (str "x = 2"))
  /\ getOptimizedCode (A := jsstring) (fun _ => inl (str "busy")) 3
     = Some (3, inl (FailedAfter 3 (str "busy")))
  /\ getOptimizedCode (A := jsstring) (fun _ => inl (str "busy")) 0
     = Some (0, inl Unexpected).
Proof.
  pose proof (getOptimizedCode_retries
                (fun n => if Nat.eqb n 2 then inr (str "x = 2")
                          else inl (str "busy")) 3) as (_ & _ & Hok & _).
  pose proof (getOptimizedCode_retries (A := jsstring)
                (fun _ => inl (str "busy")) 3) as (_ & _ & _ & Hfail).
  pose proof (getOptimizedCode_retries (A := jsstring)
                (fun _ => inl (str "busy")) 0) as (_ & Hzero & _).
  split; [|split].
  - apply (Hok 2 (str "x = 2")); [lia | reflexivity |].
    intros m Hm. exists (str "busy").
    destruct m as [|[|m]]; [reflexivity | reflexivity | lia].
  - apply Hfail; [lia | intros m _; now exists (str "busy") | reflexivity].
  - apply Hzero. lia.
Defined.

End RetryFacts.

(** ** [detectLanguage] through the language service *)

Module AiDetectFacts.

Import Str StrFacts AiDetect.

Ltac literals :=
  intros lit rep Hin; simpl in Hin;
  repeat (destruct Hin as [Hin | Hin];
          [injection Hin as <- <-; try discriminate; try reflexivity|]);
  try contradiction.

Lemma sharp_nonempty : literals_nonempty sharp.
Proof. literals. Qed.

Lemma cpp_nonempty : literals_nonempty cpp.
Proof. literals. Qed.

Lemma js_nonempty : literals_nonempty js.
Proof. literals. Qed.

(** The step for C# gives [csharp] for the text [sharp] only. *)
Lemma sharp_only (text : jsstring) :
  replaceAll sharp text = str "csharp" -> text = str "sharp".
Proof.
  destruct text as [|c text]; [discriminate|].
  destruct (first_alt sharp (c :: text)) as [[lit rep]|] eqn:F.
  - intros E. rewrite (replaceAll_match c text sharp_nonempty F) in E.
    apply first_alt_Some in F. destruct F as [Hin Hs].
    simpl in Hin. destruct Hin as [Hin|[]]. injection Hin as <- <-.
    apply startsWith_spec in Hs. destruct Hs as [t Ht]. rewrite Ht in *.
    change (skipn (List.length (str "sharp")) (str "sharp" ++ t)) with t in E.
    rewrite <- (app_nil_r (str "csharp")) in E at 2.
    apply app_inv_head in E.
    destruct (replaceAll_no_trace (alts := sharp) (result := []) sharp_nonempty)
      with (s := t) as [-> _]; [literals | exact E |].
    now rewrite app_nil_r.
  - intros E. rewrite replaceAll_skip in E by exact F.
    injection E as -> E.
    destruct (replaceAll_no_trace (alts := sharp) (result := str "sharp")
                sharp_nonempty) with (s := text) as [-> Ho];
      [literals | exact E |].
    discriminate Ho.
Qed.

Lemma sanitize_csharp (text : jsstring) :
  sanitize text = str "csharp" <-> strip text = str "sharp".
Proof.
  split.
  - unfold sanitize. intros E.
    apply (replaceAll_no_trace js_nonempty) in E; [|literals].
    destruct E as [E _].
    apply (replaceAll_no_trace cpp_nonempty) in E; [|literals].
    destruct E as [E _]. now apply sharp_only.
  - unfold sanitize. intros ->. reflexivity.
Qed.

Lemma sanitize_pro_csharp (text : jsstring) :
  sanitize_pro text = str "csharp" <-> strip text = str "sharp".
Proof.
  split.
  - unfold sanitize_pro. intros E.
    apply (replaceAll_no_trace js_nonempty) in E; [|literals].
    destruct E as [E _]. now apply sharp_only.
  - unfold sanitize_pro. intros ->. reflexivity.
Qed.

Lemma sanitize_never_cpp_plus (text : jsstring) : sanitize text <> str "c++".
Proof.
  unfold sanitize. intros E.
  apply (replaceAll_no_trace js_nonempty) in E; [|literals].
  destruct E as [E _].
  apply (replaceAll_no_trace cpp_nonempty) in E; [|literals].
  destruct E as [E Ho]. rewrite E in Ho. discriminate Ho.
Qed.

(** X4: [detectLanguage] never returns [c++], although the set of supported
    languages lists it: the step that maps [c++] to [cpp] runs before the
    look-up. *)
Theorem detectLanguage_never_cpp_plus
    (toLowerCase : jsstring -> jsstring)
    (generateContent : jsstring -> option jsstring) (code : jsstring) :
  detectLanguage toLowerCase generateContent code <> str "c++"
  /\ has SUPPORTED_LANGUAGES (str "c++") = true.
Proof.
  split; [|reflexivity]. unfold detectLanguage.
  destruct (generateContent (prompt code)) as [response|]; [|discriminate].
  cbv zeta.
  destruct (has SUPPORTED_LANGUAGES (sanitize (toLowerCase (JS.trim response))));
    [apply sanitize_never_cpp_plus | discriminate].
Qed.

(** X5: both variants of [detectLanguage] return [csharp] exactly when the
    answer of the service, trimmed, lowered and stripped of every code unit
    outside [a-z#+], is the word [sharp]. An answer that reduces to
    [csharp] or to [c#] is labelled [unknown]. *)
Theorem detectLanguage_csharp
    (toLowerCase : jsstring -> jsstring)
    (generateContent : jsstring -> option jsstring) (code : jsstring) :
  (detectLanguage toLowerCase generateContent code = str "csharp"
   <-> exists response,
         generateContent (prompt code) = Some response
         /\ strip (toLowerCase (JS.trim response)) = str "sharp")
  /\ (detectLanguage_pro toLowerCase generateContent code = str "csharp"
      <-> exists response,
            generateContent (prompt code) = Some response
            /\ strip (toLowerCase (JS.trim response)) = str "sharp")
  /\ (forall response,
        generateContent (prompt code) = Some response ->
        strip (toLowerCase (JS.trim response)) = str "csharp"
        \/ strip (toLowerCase (JS.trim response)) = str "c#" ->
        detectLanguage toLowerCase generateContent code = str "unknown"
        /\ detectLanguage_pro toLowerCase generateContent code = str "unknown").
Proof.
  split; [|split].
  - unfold detectLanguage. split.
    + destruct (generateContent (prompt code)) as [response|]; [|discriminate].
      cbv zeta.
      destruct (has SUPPORTED_LANGUAGES
                  (sanitize (toLowerCase (JS.trim response))));
        [|discriminate].
      intros E. exists response. split; [reflexivity|].
      now apply sanitize_csharp.
    + intros (response & -> & E). cbv zeta.
      apply sanitize_csharp in E. now rewrite E.
  - unfold detectLanguage_pro. split.
    + destruct (generateContent (prompt code)) as [response|]; [|discriminate].
      cbv zeta.
      destruct (has SUPPORTED_LANGUAGES_pro
                  (sanitize_pro (toLowerCase (JS.trim response))));
        [|discriminate].
      intros E. exists response. split; [reflexivity|].
      now apply sanitize_pro_csharp.
    + intros (response & -> & E). cbv zeta.
      apply sanitize_pro_csharp in E. now rewrite E.
  - intros response Hg H. unfold detectLanguage, detectLanguage_pro.
    rewrite Hg. cbv zeta. unfold sanitize, sanitize_pro.
    destruct H as [-> | ->]; split; reflexivity.
Qed.

Lemma detectLanguage_csharp_witness :
  detectLanguage (fun t => t) (fun _ => Some (str " sharp.")) (str "int x;")
  = str "csharp"
  /\ detectLanguage (fun t => t) (fun _ => Some (str "csharp")) (str "int x;")
     = str "unknown".
Proof.
  pose proof (detectLanguage_csharp (fun t => t)
                (fun _ => Some (str " sharp.")) (str "int x;"))
    as ([_ Hsharp] & _).
  pose proof (detectLanguage_csharp (fun t => t)
                (fun _ => Some (str "csharp")) (str "int x;"))
    as (_ & _ & Hplain).
  split.
  - apply Hsharp. exists (str " sharp."). split; reflexivity.
  - apply (Hplain (str "csharp") eq_refl). left. reflexivity.
Defined.

End AiDetectFacts.

(** ** The headers [refineOptimizedCode] adds *)

Module RefineFacts.

Import Str StrFacts Refine.

Lemma when_app (condition : bool) (header code : jsstring) :
  when condition header code = (if condition then header else []) ++ code.
Proof. now destruct condition. Qed.

Lemma when_suffix (condition : bool) (header code : jsstring) :
  exists h, when condition header code = h ++ code.
Proof. rewrite when_app. now eexists. Qed.

Lemma when_includes (condition : bool) (header code needle : jsstring) :
  includes code needle = true ->
  includes (when condition header code) needle = true.
Proof.
  intros H. rewrite when_app. now apply includes_prepend.
Qed.

Lemma when_missing (rest code needle : jsstring) :
  includes (when (negb (includes code needle)) (needle ++ rest) code) needle
  = true.
Proof.
  destruct (includes code needle) eqn:E; simpl; [exact E|].
  rewrite <- app_assoc. apply includes_self_prefix.
Qed.

Ltac language_is l :=
  subst l; unfold refineOptimizedCode; simpl (JS.eqb _ _); cbv iota;
  simpl orb; cbv iota.

(** X6: for the languages whose case only adds headers (python, java,
    csharp, ruby, php, swift, go, rust, c and c++), [refineOptimizedCode]
    returns the code it was given behind the headers it adds: nothing of the
    code is removed or changed. For php the result always contains the
    opening tag, for csharp it always contains [using System;]. *)
Theorem refineOptimizedCode_keeps_code (code language : jsstring) :
  In language header_only ->
  (exists headers, refineOptimizedCode code language = inr (headers ++ code))
  /\ (language = str "php" ->
      exists result, refineOptimizedCode code language = inr result
                     /\ includes result (str "<?php") = true)
  /\ (language = str "csharp" ->
      exists result, refineOptimizedCode code language = inr result
                     /\ includes result (str "using System;") = true).
Proof.
  intros Hin. simpl in Hin.
  repeat (destruct Hin as [Hin | Hin]; [symmetry in Hin|]); try contradiction;
    language_is language.
  all: split; [|split; intros E; try discriminate E].
  all: try (repeat match goal with
                   | |- context [when ?c ?h ?x] =>
                       rewrite (when_app c h x)
                   end;
            rewrite ?app_assoc; now eexists).
  - eexists. split; [reflexivity|].
    apply when_includes. apply when_missing.
  - eexists. split; [reflexivity|]. apply when_missing.
Qed.

Lemma has_In (set : list jsstring) (x : jsstring) :
  AiDetect.has set x = true <-> In x set.
Proof.
  unfold AiDetect.has. rewrite existsb_exists. split.
  - intros (y & Hy & E). apply JSFacts.eqb_eq in E. now subst.
  - intros H. exists x. split; [assumption | apply JSFacts.eqb_refl].
Qed.

Lemma refineOptimizedCode_supported (code language : jsstring) :
  In language AiDetect.SUPPORTED_LANGUAGES ->
  exists result, refineOptimizedCode code language = inr result.
Proof.
  intros Hin. simpl in Hin.
  repeat (destruct Hin as [Hin | Hin]; [symmetry in Hin|]); try contradiction;
    language_is language; try (eexists; reflexivity).
  destruct (negb (includes code (str "import"))
            && includes code (str "require(")); eexists; reflexivity.
  destruct (negb (includes code (str "import"))
            && includes code (str "require(")); eexists; reflexivity.
Qed.

(** X7: [refineOptimizedCode] has a case for exactly the languages
    [detectLanguage] can return: applied to the label [detectLanguage]
    gives, it throws [Language not supported] if and only if the label is
    [unknown]. *)
Theorem refineOptimizedCode_throws_iff_unknown
    (toLowerCase : jsstring -> jsstring)
    (generateContent : jsstring -> option jsstring)
    (userCode code : jsstring) :
  refineOptimizedCode code
    (AiDetect.detectLanguage toLowerCase generateContent userCode)
  = inl (str "Language not supported")
  <-> AiDetect.detectLanguage toLowerCase generateContent userCode
      = str "unknown".
Proof.
  split.
  - unfold AiDetect.detectLanguage.
    destruct (generateContent (AiDetect.prompt userCode)) as [response|];
      [|reflexivity].
    cbv zeta.
    destruct (AiDetect.has AiDetect.SUPPORTED_LANGUAGES
                (AiDetect.sanitize (toLowerCase (JS.trim response)))) eqn:E;
      [|reflexivity].
    apply has_In in E.
    destruct (refineOptimizedCode_supported code E) as [r ->]. discriminate.
  - intros ->. reflexivity.
Qed.

Lemma refineOptimizedCode_keeps_code_witness :
  exists headers,
    refineOptimizedCode (str "fmt.Println(1)") (str "go")
    = inr (headers ++ str "fmt.Println(1)").
Proof.
  refine (proj1 (@refineOptimizedCode_keeps_code (str "fmt.Println(1)")
                   (str "go") _)).
  simpl. tauto.
Defined.

End RefineFacts.

(** ** The syntax checks *)

Module SyntaxFacts.

Import Str Syntax.

Section Checks.

Variable exec : jsstring -> jsstring -> jsstring + jsstring.
Variable new_Function : jsstring -> option (option jsstring).

(** The fallback check returns the valid result without issues, or an
    invalid result with one issue, an error at line 1, column 1. *)
Lemma traditionalSyntaxCheck_shape (code language : jsstring) :
  traditionalSyntaxCheck exec new_Function code language = valid
  \/ exists message,
       traditionalSyntaxCheck exec new_Function code language
       = formatSyntaxError message.
Proof.
  unfold traditionalSyntaxCheck. cbv zeta.
  repeat match goal with
         | |- context [if ?b then _ else _] => destruct b
         end;
    try (now left); try (right; eexists; reflexivity).
  destruct (new_Function _) as [[m|]|];
    [right; now exists m | right; eexists; reflexivity | now left].
Qed.

Lemma traditionalSyntaxCheck_unchecked (code language : jsstring) :
  ~ In language checked ->
  traditionalSyntaxCheck exec new_Function code language
  = formatSyntaxError (str "Unsupported language").
Proof.
  intros Hnot. unfold traditionalSyntaxCheck. cbv zeta.
  repeat match goal with
         | |- context [JS.eqb language (str ?name)] =>
             replace (JS.eqb language (str name)) with false
               by (symmetry; apply JSFacts.eqb_neq; intros ->; apply Hnot;
                   simpl; tauto)
         end.
  reflexivity.
Qed.

End Checks.

(** X8: the verdict of [validateSyntax] agrees with the issues it returns,
    whether it comes from the service or from the fallback check: the
    result is valid exactly when none of its issues has the severity
    [error], and an invalid result carries at least one issue. *)
Theorem validateSyntax_verdict
    (exec : jsstring -> jsstring -> jsstring + jsstring)
    (new_Function : jsstring -> option (option jsstring))
    (ai_validation :
       jsstring -> jsstring -> option (jsstring * option (list SyntaxIssue)))
    (code language : jsstring) :
  isValid (validateSyntax exec new_Function ai_validation code language)
  = forallb not_error
      (issues (validateSyntax exec new_Function ai_validation code language))
  /\ (isValid (validateSyntax exec new_Function ai_validation code language)
      = false ->
      issues (validateSyntax exec new_Function ai_validation code language)
      <> []).
Proof.
  assert (Hfallback :
    isValid (traditionalSyntaxCheck exec new_Function code language)
    = forallb not_error
        (issues (traditionalSyntaxCheck exec new_Function code language))
    /\ (isValid (traditionalSyntaxCheck exec new_Function code language) = false
        -> issues (traditionalSyntaxCheck exec new_Function code language)
           <> [])).
  { destruct (traditionalSyntaxCheck_shape exec new_Function code language)
      as [-> | [m ->]]; split; try reflexivity; try discriminate. }
  unfold validateSyntax.
  destruct (ai_validation code language) as [[rt [[|i rest]|]]|];
    try exact Hfallback.
  split; [reflexivity | discriminate].
Qed.

(** X9: for a language the fallback check has no case for, the label
    [unknown] included, [validateSyntax] accepts the code only when the
    service lists at least one issue and none of them is an error: when the
    service finds nothing, fails, or answers what cannot be parsed, the
    code is refused as [Unsupported language]. *)
Theorem validateSyntax_unchecked_language
    (exec : jsstring -> jsstring -> jsstring + jsstring)
    (new_Function : jsstring -> option (option jsstring))
    (ai_validation :
       jsstring -> jsstring -> option (jsstring * option (list SyntaxIssue)))
    (code language : jsstring) :
  ~ In language checked ->
  (isValid (validateSyntax exec new_Function ai_validation code language)
   = true
   <-> exists responseText i rest,
         ai_validation code language = Some (responseText, Some (i :: rest))
         /\ forallb not_error (i :: rest) = true)
  /\ ((forall responseText i rest,
         ai_validation code language <> Some (responseText, Some (i :: rest)))
      -> validateSyntax exec new_Function ai_validation code language
         = formatSyntaxError (str "Unsupported language")).
Proof.
  intros Hnot.
  pose proof (traditionalSyntaxCheck_unchecked exec new_Function code Hnot)
    as Ht.
  unfold validateSyntax.
  destruct (ai_validation code language) as [[rt [[|i rest]|]]|];
    rewrite ?Ht; (split; [split|]).
  all: try (intros H; discriminate H).
  all: try (intros (rt' & i' & rest' & E & _); discriminate E).
  all: try (intros _; reflexivity).
  - intros H. now exists rt, i, rest.
  - intros (rt' & i' & rest' & E & H). injection E as <- <- <-. exact H.
  - intros H. now elim (H rt i rest).
Qed.

Lemma validateSyntax_unchecked_language_witness :
  validateSyntax (fun _ _ => inl []) (fun _ => None)
    (fun _ _ => Some (str "{}", Some [])) (str "x = 1") (str "unknown")
  = formatSyntaxError (str "Unsupported language").
Proof.
  refine (proj2 (@validateSyntax_unchecked_language (fun _ _ => inl [])
                   (fun _ => None) (fun _ _ => Some (str "{}", Some []))
                   (str "x = 1") (str "unknown") _) _).
  - simpl. intros H.
    repeat (destruct H as [H | H]; [discriminate H|]). exact H.
  - intros rt i rest. discriminate.
Defined.

Lemma validateSyntax_verdict_witness :
  issues
    (validateSyntax (fun _ _ => inl []) (fun _ => None) (fun _ _ => None)
       (str "x = 1") (str "unknown"))
  <> [].
Proof.
  apply (validateSyntax_verdict (fun _ _ => inl []) (fun _ => None)
           (fun _ _ => None) (str "x = 1") (str "unknown")).
  reflexivity.
Defined.

End SyntaxFacts.

(** ** The replacements of [refineOptimizedCode] *)

Module RefineWordsFacts.

Import Str StrFacts RefineWords.

Lemma skipn_length_prefix (lit t : jsstring) :
  skipn (List.length lit) (lit ++ t) = t.
Proof. induction lit; simpl; auto. Qed.

(** A literal that ends outside [\w] is replaced only where a code unit of
    [\w] follows it. *)
Lemma replace_word_noop (lit rep : jsstring) :
  word_at (last_of lit) = false ->
  forall fuel prev s,
    (forall a c b, s = a ++ lit ++ c :: b -> Regex.is_word c = false) ->
    replace_word fuel lit rep prev s = s.
Proof.
  intros Hlast. induction fuel as [|fuel IH]; intros prev s Hs;
    [reflexivity|].
  destruct s as [|c s]; [reflexivity|]. cbn [replace_word].
  assert (Hcond : startsWith (c :: s) lit
                  && boundary prev (Some c)
                  && boundary (last_of lit)
                       (hd_error (skipn (List.length lit) (c :: s)))
                  = false).
  { destruct (startsWith (c :: s) lit) eqn:E; [|reflexivity].
    apply startsWith_spec in E. destruct E as [t Ht].
    rewrite Ht, skipn_length_prefix. unfold boundary. rewrite Hlast.
    destruct t as [|c' b]; simpl; [apply andb_false_r|].
    rewrite (Hs [] c' b) by exact Ht. apply andb_false_r. }
  rewrite Hcond. f_equal. apply IH.
  intros a c' b E. apply (Hs (c :: a) c' b). now rewrite E.
Qed.

Lemma followed_by_word_spec (lit s : jsstring) :
  followed_by_word lit s = true <->
  exists a c b, s = a ++ lit ++ c :: b /\ Regex.is_word c = true.
Proof.
  induction s as [|x s IH].
  - cbn [followed_by_word]. rewrite orb_false_r, andb_true_iff, startsWith_spec.
    split.
    + intros [[t Ht] Hw]. rewrite Ht, skipn_length_prefix in Hw.
      destruct t as [|c b]; [discriminate|]. now exists [], c, b.
    + intros (a & c & b & E & _). destruct a; [|discriminate E].
      destruct lit; discriminate E.
  - cbn [followed_by_word].
    rewrite orb_true_iff, andb_true_iff, startsWith_spec, IH. split.
    + intros [[[t Ht] Hw] | (a & c & b & E & Hw)].
      * rewrite Ht, skipn_length_prefix in Hw.
        destruct t as [|c b]; [discriminate|]. now exists [], c, b.
      * exists (x :: a), c, b. split; [now rewrite E | assumption].
    + intros (a & c & b & E & Hw). destruct a as [|y a].
      * left. split; [now exists (c :: b)|].
        simpl in E. rewrite E, skipn_length_prefix. exact Hw.
      * right. injection E as _ E. now exists a, c, b.
Qed.

(** X10: the rule for C++ replaces [vector<int>] only where a letter, a
    digit or an underscore follows the closing angle bracket: a text in
    which no [vector<int>] is followed by such a code unit, as in the
    declaration [vector<int> v;], is returned unchanged. Texts in other
    languages than java, python and cpp, and python texts without
    [if x in list_name], are returned unchanged too. *)
Theorem refineOptimizedCode_cpp_rule (code language : jsstring) :
  (language = str "cpp" ->
   followed_by_word (str "vector<int>") code = false ->
   refineOptimizedCode code language = code)
  /\ (language = str "python" ->
      includes code (str "if x in list_name") = false ->
      refineOptimizedCode code language = code)
  /\ (language <> str "java" -> language <> str "python" ->
      language <> str "cpp" ->
      refineOptimizedCode code language = code).
Proof.
  split; [|split].
  - intros -> H. unfold refineOptimizedCode. simpl (JS.eqb _ _). cbv iota.
    apply replace_word_noop; [reflexivity|].
    intros a c b E. destruct (Regex.is_word c) eqn:Hw; [|reflexivity].
    rewrite <- H. symmetry. apply followed_by_word_spec. now exists a, c, b.
  - intros -> H. unfold refineOptimizedCode. simpl (JS.eqb _ _). cbv iota.
    now rewrite H.
  - intros Hj Hp Hc. unfold refineOptimizedCode.
    apply JSFacts.eqb_neq in Hj, Hp, Hc. now rewrite Hj, Hp, Hc.
Qed.

Lemma refineOptimizedCode_cpp_rule_witness :
  refineOptimizedCode (str "vector<int> v;") (str "cpp") = str "vector<int> v;".
Proof.
  exact (proj1 (refineOptimizedCode_cpp_rule (str "vector<int> v;")
                  (str "cpp")) eq_refl eq_refl).
Defined.

End RefineWordsFacts.

(** ** The explanation taken from a comment *)

Module ExplainFacts.

Import Str StrFacts Explain.

Lemma skipn_app_length (lit t : jsstring) :
  skipn (List.length lit) (lit ++ t) = t.
Proof. induction lit; simpl; auto. Qed.

Lemma find_unfold (s needle : jsstring) :
  find s needle =
  if startsWith s needle then Some ([], skipn (List.length needle) s)
  else
    match s with
    | [] => None
    | c :: s' =>
        match find s' needle with
        | Some (before, behind) => Some (c :: before, behind)
        | None => None
        end
    end.
Proof. now destruct s. Qed.

Lemma find_Some (s needle before behind : jsstring) :
  find s needle = Some (before, behind) -> s = before ++ needle ++ behind.
Proof.
  revert before. induction s as [|c s IH]; intros before;
    rewrite find_unfold.
  - destruct (startsWith [] needle) eqn:E; [|discriminate].
    intros H. injection H as <- <-.
    apply startsWith_spec in E. destruct E as [t Ht].
    symmetry in Ht. apply app_eq_nil in Ht. now destruct Ht as [-> ->].
  - destruct (startsWith (c :: s) needle) eqn:E.
    + intros H. injection H as <- <-.
      apply startsWith_spec in E. destruct E as [t Ht].
      now rewrite Ht, skipn_app_length.
    + destruct (find s needle) as [[b a]|]; [|discriminate].
      intros H. injection H as <- <-. simpl. f_equal. now apply IH.
Qed.

Lemma find_None (s needle : jsstring) :
  find s needle = None <-> includes s needle = false.
Proof.
  induction s as [|c s IH]; cbn [find includes].
  - destruct (startsWith [] needle); simpl; split; congruence.
  - destruct (startsWith (c :: s) needle); simpl; [split; congruence|].
    rewrite <- IH. destruct (find s needle) as [[b a]|]; split; congruence.
Qed.

Lemma trimStart_suffix (s : jsstring) : exists a, s = a ++ JS.trimStart s.
Proof.
  induction s as [|c s [a IH]]; [now exists []|]. simpl.
  destruct (JS.is_space c); [|now exists []].
  exists (c :: a). simpl. now f_equal.
Qed.

Lemma trimStart_head (s : jsstring) (c : N) (rest : jsstring) :
  JS.trimStart s = c :: rest -> JS.is_space c = false.
Proof.
  induction s as [|x s IH]; simpl; [discriminate|].
  destruct (JS.is_space x) eqn:E; [exact IH|].
  intros H. now injection H as <- _.
Qed.

(** [trim] cuts white space off both ends and nothing else. *)
Lemma trim_inside (s : jsstring) : exists a b, s = a ++ JS.trim s ++ b.
Proof.
  unfold JS.trim. destruct (trimStart_suffix s) as [a Ha].
  destruct (trimStart_suffix (rev (JS.trimStart s))) as [b Hb].
  exists a, (rev b). rewrite Ha at 1. f_equal.
  rewrite <- rev_app_distr, <- Hb. now rewrite rev_involutive.
Qed.

Lemma trim_last (s init : jsstring) (c : N) :
  JS.trim s = init ++ [c] -> JS.is_space c = false.
Proof.
  unfold JS.trim. intros H.
  apply (f_equal (@rev N)) in H. rewrite rev_involutive, rev_app_distr in H.
  simpl in H. now apply trimStart_head in H.
Qed.

Lemma trim_head (s : jsstring) (c : N) (rest : jsstring) :
  JS.trim s = c :: rest -> JS.is_space c = false.
Proof.
  unfold JS.trim. intros H.
  destruct (trimStart_suffix (rev (JS.trimStart s))) as [b Hb].
  apply (f_equal (@rev N)) in Hb.
  rewrite rev_involutive, rev_app_distr, H in Hb.
  simpl in Hb. now apply trimStart_head in Hb.
Qed.

Lemma common_prefix (p x q y : jsstring) :
  p ++ x = q ++ y -> List.length p <= List.length q -> exists z, q = p ++ z.
Proof.
  revert q. induction p as [|c p IH]; intros q E Hl; [now exists q|].
  destruct q as [|d q]; [simpl in Hl; lia|].
  injection E as -> E. simpl in Hl.
  destruct (IH q E) as [z ->]; [lia|]. now exists z.
Qed.

Lemma find_first (before needle behind : jsstring) :
  first_at before needle ->
  find (before ++ needle ++ behind) needle = Some (before, behind).
Proof.
  induction before as [|c before IH]; intros Hfirst; rewrite find_unfold.
  - simpl. now rewrite startsWith_app, skipn_app_length.
  - destruct (startsWith ((c :: before) ++ needle ++ behind) needle) eqn:E.
    + apply startsWith_spec in E. destruct E as [t Ht].
      destruct (common_prefix needle t ((c :: before) ++ needle) behind)
        as [z Hz].
      * now rewrite <- app_assoc, <- Ht.
      * rewrite length_app. lia.
      * specialize (Hfirst [] z Hz). discriminate Hfirst.
    + simpl. rewrite IH; [reflexivity|].
      intros a b Hab. specialize (Hfirst (c :: a) b).
      simpl in Hfirst. rewrite Hab in Hfirst.
      specialize (Hfirst eq_refl). now injection Hfirst.
Qed.

Lemma find_leftmost (s needle before behind : jsstring) :
  find s needle = Some (before, behind) ->
  forall a b, s = a ++ needle ++ b -> List.length before <= List.length a.
Proof.
  revert before. induction s as [|c s IH]; intros before;
    rewrite find_unfold.
  - destruct (startsWith [] needle); [|discriminate].
    intros H. injection H as <- _. intros a b _. simpl. lia.
  - destruct (startsWith (c :: s) needle) eqn:E.
    + intros H. injection H as <- _. intros a b _. simpl. lia.
    + destruct (find s needle) as [[b0 r0]|] eqn:F; [|discriminate].
      intros H. injection H as <- <-. intros a b Hs.
      destruct a as [|x a].
      * simpl in Hs. rewrite Hs, startsWith_app in E. discriminate E.
      * injection Hs as _ Hs. simpl.
        specialize (IH b0 eq_refl a b Hs). lia.
Qed.

Lemma find_first_at (before needle : jsstring) :
  find (before ++ needle) needle = Some (before, []) ->
  first_at before needle.
Proof.
  intros H a b E.
  pose proof (@find_leftmost _ _ _ _ H a b E) as Hle.
  assert (Hlen : List.length (before ++ needle)
                 = List.length (a ++ needle ++ b)) by now rewrite E.
  rewrite !length_app in Hlen.
  destruct (@common_prefix before needle a (needle ++ b) E Hle) as [z Hz].
  subst a. rewrite length_app in Hlen.
  destruct z as [|x z]; [now rewrite app_nil_r|]. simpl in Hlen. lia.
Qed.

Lemma extract_inside (code open close : jsstring) :
  includes code (extract (open, close) code) = true
  /\ (forall c rest, extract (open, close) code = c :: rest ->
                     JS.is_space c = false)
  /\ (forall init c, extract (open, close) code = init ++ [c] ->
                     JS.is_space c = false)
  /\ (includes code open = false -> extract (open, close) code = [])
  /\ (forall before captured behind,
        code = before ++ open ++ captured ++ close ++ behind ->
        first_at before open -> first_at captured close ->
        extract (open, close) code = JS.trim captured).
Proof.
  unfold extract. cbn [fst snd]. unfold match_between.
  split; [|split; [|split; [|split]]].
  - assert (Hnil : includes code [] = true) by (now destruct code).
    destruct (find code open) as [[b rest]|] eqn:Ho; [|exact Hnil].
    destruct (find rest close) as [[captured behind]|] eqn:Hc; [|exact Hnil].
    apply find_Some in Ho, Hc. subst code rest.
    destruct (trim_inside captured) as (x & y & Hxy).
    apply includes_spec.
    exists (b ++ open ++ x), (y ++ close ++ behind).
    rewrite Hxy at 1. now rewrite <- !app_assoc.
  - destruct (find code open) as [[b rest]|]; [|discriminate].
    destruct (find rest close) as [[captured behind]|]; [|discriminate].
    intros c r. apply trim_head.
  - destruct (find code open) as [[b rest]|];
      [|intros [|? ?] c E; discriminate E].
    destruct (find rest close) as [[captured behind]|];
      [|intros [|? ?] c E; discriminate E].
    intros i c. apply trim_last.
  - intros Hn. apply find_None in Hn. now rewrite Hn.
  - intros before captured behind -> Hb Hc.
    rewrite (find_first (captured ++ close ++ behind) Hb).
    now rewrite (find_first behind Hc).
Qed.

(** X11: for a label that names no member inherited from
    [Object.prototype], [extractExplanation] does not throw, and what it
    returns is a part of the code it was given, without white space at its
    ends: it is the text between the first opening delimiter of the language
    and the first closing delimiter behind it, trimmed. When the code holds
    no opening delimiter, it returns the empty string. For a label that
    names an inherited member and is none of the ten keys, the result is
    what the engine makes of that member. *)
Theorem extractExplanation_inside
    (inherited : jsstring -> option (jsstring -> DiffLib.error + jsstring))
    (code language open close : jsstring) :
  pattern_of language = (open, close) ->
  (inherited language = None ->
   exists text,
     extractExplanation inherited code language = inr text
     /\ includes code text = true
     /\ (forall c rest, text = c :: rest -> JS.is_space c = false)
     /\ (forall init c, text = init ++ [c] -> JS.is_space c = false)
     /\ (includes code open = false -> text = [])
     /\ (forall before captured behind,
           code = before ++ open ++ captured ++ close ++ behind ->
           first_at before open -> first_at captured close ->
           text = JS.trim captured))
  /\ (forall member,
        inherited language = Some member ->
        lookup commentPatterns language = None ->
        extractExplanation inherited code language = member code).
Proof.
  intros Hp. split.
  - intros Hi. exists (extract (open, close) code).
    split; [|apply extract_inside].
    unfold extractExplanation. unfold pattern_of in Hp.
    destruct (lookup commentPatterns language) as [pattern|];
      [now rewrite Hp|].
    now rewrite Hi, Hp.
  - intros member Hi Hl. unfold extractExplanation. now rewrite Hl, Hi.
Qed.

Lemma extractExplanation_inside_witness :
  extractExplanation sample_engine (str "/* hi */ x = 1") (str "java")
  = inr (str "hi")
  /\ extractExplanation sample_engine (str "/* hi */ x = 1")
       (str "__proto__")
     = inl DiffLib.TypeError.
Proof.
  pose proof (@extractExplanation_inside sample_engine
                (str "/* hi */ x = 1") (str "java") (str "/*") (str "*/")
                eq_refl) as [Hown _].
  pose proof (@extractExplanation_inside sample_engine
                (str "/* hi */ x = 1") (str "__proto__") (str "/*") (str "*/")
                eq_refl) as [_ Hmember].
  split.
  - destruct (Hown eq_refl) as (text & -> & _ & _ & _ & _ & Hcap).
    f_equal.
    apply (Hcap [] (str " hi ") (str " x = 1") eq_refl).
    + apply find_first_at. reflexivity.
    + apply find_first_at. reflexivity.
  - exact (Hmember _ eq_refl eq_refl).
Defined.

End ExplainFacts.

(** ** The page after it is loaded *)

Module ScriptFacts.

Import DiffLib Webview WebviewFacts.



End ScriptFacts.

(** ** The explanation without Markdown marks *)

Module ExplanationFacts.

Import Str StrFacts Explanation.

Lemma fences_nonempty : literals_nonempty fences.
Proof.
  intros lit rep [H|[]]. injection H as <- _. discriminate.
Qed.

Lemma startsWith_fence (s : jsstring) :
  startsWith s fence = true <-> 3 <= lead s.
Proof.
  unfold fence.
  destruct s as [|a s]; cbn [startsWith lead]; [split; [discriminate | lia]|].
  rewrite (N.eqb_sym 96 a).
  destruct (a =? 96)%N; cbn [andb]; [|split; [discriminate | lia]].
  destruct s as [|b s]; cbn [startsWith lead]; [split; [discriminate | lia]|].
  rewrite (N.eqb_sym 96 b).
  destruct (b =? 96)%N; cbn [andb]; [|split; [discriminate | lia]].
  destruct s as [|c s]; cbn [startsWith lead]; [split; [discriminate | lia]|].
  rewrite (N.eqb_sym 96 c).
  destruct (c =? 96)%N; cbn [andb]; [|split; [discriminate | lia]].
  split; [lia | reflexivity].
Qed.

Lemma first_alt_fence (s : jsstring) :
  first_alt fences s
  = if startsWith s fence then Some (fence, []) else None.
Proof. reflexivity. Qed.

Lemma replaceAll_fence_skip (c : N) (s : jsstring) :
  startsWith (c :: s) fence = false ->
  replaceAll fences (c :: s) = c :: replaceAll fences s.
Proof.
  intros H. apply replaceAll_skip. now rewrite first_alt_fence, H.
Qed.

Lemma replaceAll_fence_match (t : jsstring) :
  replaceAll fences (fence ++ t) = replaceAll fences t.
Proof.
  change (fence ++ t) with (96%N :: 96%N :: 96%N :: t).
  rewrite (replaceAll_match (lit := fence) (rep := []) 96%N
             (96%N :: 96%N :: t) fences_nonempty); reflexivity.
Qed.

Lemma not_fence_lead (s : jsstring) :
  startsWith s fence = false <-> lead s <= 2.
Proof.
  destruct (startsWith s fence) eqn:E.
  - apply startsWith_fence in E. split; [discriminate | lia].
  - split; [|reflexivity]. intros _.
    destruct (le_lt_dec (lead s) 2) as [H|H]; [assumption|].
    apply startsWith_fence in H. congruence.
Qed.

(** Up to two grave accents at the start stay where they are. *)
Lemma lead_replaceAll (s : jsstring) :
  lead s <= 2 -> lead (replaceAll fences s) = lead s.
Proof.
  induction s as [|c s IH]; intros H; [reflexivity|].
  rewrite replaceAll_fence_skip by now apply not_fence_lead.
  simpl in *. destruct (c =? 96)%N; [|reflexivity].
  f_equal. apply IH. lia.
Qed.

(** No fence is left behind the second [replace]. *)
Lemma replaceAll_no_fence (s : jsstring) :
  includes (replaceAll fences s) fence = false.
Proof.
  remember (List.length s) as n eqn:Hn.
  assert (Hle : List.length s <= n) by lia. clear Hn.
  revert s Hle. induction n as [|n IH]; intros s Hle.
  - destruct s; [reflexivity | simpl in Hle; lia].
  - destruct s as [|c s]; [reflexivity|]. simpl in Hle.
    destruct (startsWith (c :: s) fence) eqn:E.
    + apply startsWith_spec in E. destruct E as [t Ht]. rewrite Ht.
      rewrite replaceAll_fence_match. apply IH.
      apply (f_equal (@List.length N)) in Ht.
      rewrite length_app in Ht. simpl in Ht. lia.
    + rewrite replaceAll_fence_skip by exact E.
      cbn [includes]. rewrite (IH s) by lia. rewrite orb_false_r.
      apply not_fence_lead. apply not_fence_lead in E.
      simpl in *. destruct (c =? 96)%N; [|lia].
      rewrite lead_replaceAll by lia. lia.
Qed.

Lemma includes_trim (s needle : jsstring) :
  includes s needle = false -> includes (JS.trim s) needle = false.
Proof.
  intros H. destruct (includes (JS.trim s) needle) eqn:E; [|reflexivity].
  destruct (ExplainFacts.trim_inside s) as (a & b & Hs).
  rewrite Hs in H. now rewrite includes_app in H.
Qed.

(** X13: the explanation [generateOptimizationExplanation] returns never
    contains a Markdown fence of three grave accents, whatever the service
    answers and also when it fails; and it has no white space at its
    ends. *)
Theorem generateOptimizationExplanation_no_fence
    (generateContent : jsstring -> option jsstring)
    (originalCode optimizedCode language : jsstring) :
  includes
    (generateOptimizationExplanation generateContent originalCode
       optimizedCode language) fence = false
  /\ (forall c rest,
        generateOptimizationExplanation generateContent originalCode
          optimizedCode language = c :: rest ->
        JS.is_space c = false)
  /\ (forall init c,
        generateOptimizationExplanation generateContent originalCode
          optimizedCode language = init ++ [c] ->
        JS.is_space c = false).
Proof.
  unfold generateOptimizationExplanation.
  destruct (generateContent (prompt originalCode optimizedCode language))
    as [text|].
  - cbv zeta. unfold remove_markdown. split; [|split].
    + apply includes_trim. apply replaceAll_no_fence.
    + intros c rest. apply ExplainFacts.trim_head.
    + intros init c. apply ExplainFacts.trim_last.
  - split; [vm_compute; reflexivity|]. split.
    + intros c rest E. vm_compute in E. injection E as <- _. reflexivity.
    + intros init c E.
      apply (f_equal (@rev N)) in E. rewrite rev_app_distr in E.
      vm_compute in E. injection E as <- _. reflexivity.
Qed.

End ExplanationFacts.

(** ** The optimization pipeline *)

Module PipelineFacts.

Import Str StrFacts Pipeline.

Section Service.

Variable toLowerCase : jsstring -> jsstring.
Variable generateText : jsstring -> jsstring + jsstring.
Variable exec : jsstring -> jsstring -> jsstring + jsstring.
Variable new_Function : jsstring -> option (option jsstring).
Variable ai_validation :
  jsstring -> jsstring -> option (jsstring * option (list Syntax.SyntaxIssue)).

Let run := getOptimizedCode toLowerCase generateText exec new_Function
             ai_validation.
Let detect := AiDetect.detectLanguage toLowerCase
                (generateContent generateText).
Let validate := Syntax.validateSyntax exec new_Function ai_validation.

(** Every way through the function. *)
Lemma getOptimizedCode_cases (userCode : jsstring) :
  (Syntax.isValid (validate userCode (detect userCode)) = false
   /\ exists message, snd (run userCode) = inl (failed message))
  \/ (Syntax.isValid (validate userCode (detect userCode)) = true
      /\ ((exists message,
             generateText (optimizationCheckPrompt (detect userCode) userCode)
             = inl message
             /\ snd (run userCode) = inl (failed message))
          \/ (exists answer,
                generateText
                  (optimizationCheckPrompt (detect userCode) userCode)
                = inr answer
                /\ toLowerCase (JS.trim answer) <> str "yes"
                /\ snd (run userCode) = inr (userCode, no_optimizations))
          \/ (exists answer,
                generateText
                  (optimizationCheckPrompt (detect userCode) userCode)
                = inr answer
                /\ toLowerCase (JS.trim answer) = str "yes"
                /\ ((exists message,
                       generateText
                         (optimizationPrompt (detect userCode) userCode)
                       = inl message
                       /\ snd (run userCode) = inl (failed message))
                    \/ exists text,
                         generateText
                           (optimizationPrompt (detect userCode) userCode)
                         = inr text
                         /\ match Refine.refineOptimizedCode
                                    (Explanation.remove_markdown (JS.trim text))
                                    (detect userCode) with
                            | inl message =>
                                snd (run userCode) = inl (failed message)
                            | inr code =>
                                snd (run userCode)
                                = inr (code,
                                       generateOptimizationExplanation
                                         generateText userCode code
                                         (detect userCode))
                            end)))).
Proof.
  subst run detect validate. unfold getOptimizedCode. cbv zeta.
  set (language := AiDetect.detectLanguage toLowerCase
                     (generateContent generateText) userCode).
  destruct (Syntax.isValid
              (Syntax.validateSyntax exec new_Function ai_validation userCode
                 language)); simpl negb; cbv iota.
  2: { left. split; [reflexivity|]. eexists. reflexivity. }
  right. split; [reflexivity|].
  destruct (generateText (optimizationCheckPrompt language userCode))
    as [message|answer].
  { left. now exists message. }
  right.
  destruct (JS.eqb (toLowerCase (JS.trim answer)) (str "yes")) eqn:Hyes;
    simpl negb; cbv iota.
  2: { left. exists answer. apply JSFacts.eqb_neq in Hyes. now repeat split. }
  right. exists answer. apply JSFacts.eqb_eq in Hyes.
  split; [reflexivity|]. split; [assumption|].
  destruct (generateText (optimizationPrompt language userCode))
    as [message|text].
  { left. now exists message. }
  right. exists text. split; [reflexivity|].
  now destruct (Refine.refineOptimizedCode
                  (Explanation.remove_markdown (JS.trim text)) language).
Qed.

End Service.

(** X14: when the language is not detected (the label is [unknown]),
    [getOptimizedCode] never returns optimized code: it throws, or returns
    the code of the user unchanged with the explanation that no
    optimizations were found. Every error it throws carries the prefix
    [Failed to optimize code: ]. *)
Theorem getOptimizedCode_unknown_language
    (toLowerCase : jsstring -> jsstring)
    (generateText : jsstring -> jsstring + jsstring)
    (exec : jsstring -> jsstring -> jsstring + jsstring)
    (new_Function : jsstring -> option (option jsstring))
    (ai_validation :
       jsstring -> jsstring ->
       option (jsstring * option (list Syntax.SyntaxIssue)))
    (userCode : jsstring) :
  (AiDetect.detectLanguage toLowerCase (generateContent generateText) userCode
   = str "unknown" ->
   (exists message,
      snd (getOptimizedCode toLowerCase generateText exec new_Function
             ai_validation userCode) = inl (failed message))
   \/ snd (getOptimizedCode toLowerCase generateText exec new_Function
             ai_validation userCode) = inr (userCode, no_optimizations))
  /\ (forall error,
        snd (getOptimizedCode toLowerCase generateText exec new_Function
               ai_validation userCode) = inl error ->
        startsWith error (str "Failed to optimize code: ") = true).
Proof.
  pose proof (getOptimizedCode_cases toLowerCase generateText exec
                new_Function ai_validation userCode) as H.
  split.
  - intros Hu. rewrite Hu in H.
    destruct H as [[_ [m Hm]] | [_ [(m & _ & Hm) | [(a & _ & _ & Hr)
                  | (a & _ & _ & [(m & _ & Hm) | (t & _ & Hr)])]]]].
    + left. now exists m.
    + left. now exists m.
    + now right.
    + left. now exists m.
    + left. exists (str "Language not supported"). exact Hr.
  - intros error He. rewrite He in H.
    assert (Hf : forall m, inl error = inl (B := jsstring * jsstring)
                             (failed m) ->
                 startsWith error (str "Failed to optimize code: ") = true).
    { intros m E. injection E as ->. apply startsWith_app. }
    destruct H as [[_ [m Hm]] | [_ [(m & _ & Hm) | [(a & _ & _ & Hr)
                  | (a & _ & _ & [(m & _ & Hm) | (t & _ & Hr)])]]]];
      try (now apply (Hf m)); try discriminate Hr.
    destruct (Refine.refineOptimizedCode _ _) as [m|c];
      [now apply (Hf m) | discriminate Hr].
Qed.

(** X15: [getOptimizedCode] returns a result only for code that
    [validateSyntax] accepts; the code it returns is the code of the user
    unchanged, when the answer to the question whether it can be optimized
    is not [yes], and otherwise the answer of the service, trimmed, without
    Markdown marks and refined. *)
Theorem getOptimizedCode_result
    (toLowerCase : jsstring -> jsstring)
    (generateText : jsstring -> jsstring + jsstring)
    (exec : jsstring -> jsstring -> jsstring + jsstring)
    (new_Function : jsstring -> option (option jsstring))
    (ai_validation :
       jsstring -> jsstring ->
       option (jsstring * option (list Syntax.SyntaxIssue)))
    (userCode code explanation : jsstring) :
  snd (getOptimizedCode toLowerCase generateText exec new_Function
         ai_validation userCode) = inr (code, explanation) ->
  let language :=
    AiDetect.detectLanguage toLowerCase (generateContent generateText)
      userCode in
  Syntax.isValid
    (Syntax.validateSyntax exec new_Function ai_validation userCode language)
  = true
  /\ exists answer,
      generateText (optimizationCheckPrompt language userCode) = inr answer
      /\ ((toLowerCase (JS.trim answer) <> str "yes"
           /\ code = userCode /\ explanation = no_optimizations)
          \/ (toLowerCase (JS.trim answer) = str "yes"
              /\ exists text,
                   generateText (optimizationPrompt language userCode)
                   = inr text
                   /\ Refine.refineOptimizedCode
                        (Explanation.remove_markdown (JS.trim text)) language
                      = inr code)).
Proof.
  intros Hr language. subst language.
  pose proof (getOptimizedCode_cases toLowerCase generateText exec
                new_Function ai_validation userCode) as H.
  rewrite Hr in H.
  destruct H as [[_ [m Hm]] | [Hv [(m & _ & Hm) | [(a & Ha & Hn & Hres)
                | (a & Ha & Hy & [(m & _ & Hm) | (t & Ht & Hres)])]]]];
    try discriminate.
  - split; [exact Hv|]. exists a. split; [exact Ha|]. left.
    injection Hres as -> ->. now repeat split.
  - split; [exact Hv|]. exists a. split; [exact Ha|]. right.
    split; [exact Hy|]. exists t. split; [exact Ht|].
    destruct (Refine.refineOptimizedCode _ _) as [m|c]; [discriminate|].
    now injection Hres as -> _.
Qed.

(** What [getOptimizedCode] has shown when it throws: that it started and
    the language it detected, nothing else. *)
Lemma getOptimizedCode_failure_shows
    (toLowerCase : jsstring -> jsstring)
    (generateText : jsstring -> jsstring + jsstring)
    (exec : jsstring -> jsstring -> jsstring + jsstring)
    (new_Function : jsstring -> option (option jsstring))
    (ai_validation :
       jsstring -> jsstring ->
       option (jsstring * option (list Syntax.SyntaxIssue)))
    (userCode error : jsstring) :
  snd (getOptimizedCode toLowerCase generateText exec new_Function
         ai_validation userCode) = inl error ->
  fst (getOptimizedCode toLowerCase generateText exec new_Function
         ai_validation userCode)
  = [Extension.Info
       (str "Detected Language: "
          ++ AiDetect.detectLanguage toLowerCase
               (generateContent generateText) userCode);
     Extension.Info (str "Optimization process started...")].
Proof.
  unfold getOptimizedCode. cbv zeta.
  destruct (negb (Syntax.isValid _)); [reflexivity|].
  destruct (generateText (optimizationCheckPrompt _ _)) as [m|answer];
    [reflexivity|].
  destruct (negb (JS.eqb _ _)); [discriminate|].
  destruct (generateText (optimizationPrompt _ _)) as [m|text];
    [reflexivity|].
  destruct (Refine.refineOptimizedCode _ _) as [m|code];
    [reflexivity | discriminate].
Qed.

(** X16: when [getOptimizedCode] fails, it has shown that the optimization
    started and which language was detected, and the command then shows the
    error with the prefix [Failed to optimize code: ] twice, once from the
    function and once from the command; these three notifications are all
    that happens: no review panel is opened and the document is left as it
    was. *)
Theorem optimizeCode_failure_message
    (toLowerCase : jsstring -> jsstring)
    (generateText : jsstring -> jsstring + jsstring)
    (exec : jsstring -> jsstring -> jsstring + jsstring)
    (new_Function : jsstring -> option (option jsstring))
    (ai_validation :
       jsstring -> jsstring ->
       option (jsstring * option (list Syntax.SyntaxIssue)))
    (h : Extension.host) (error : jsstring) :
  snd (getOptimizedCode toLowerCase generateText exec new_Function
         ai_validation (Extension.document h)) = inl error ->
  exists message,
    error = failed message
    /\ optimizeCode toLowerCase generateText exec new_Function ai_validation
         true h
       = Extension.Ended
           (Extension.showErrorMessage
              (str "Failed to optimize code: Failed to optimize code: "
                 ++ message)
              (Extension.showInformationMessage
                 (str "Detected Language: "
                    ++ AiDetect.detectLanguage toLowerCase
                         (generateContent generateText)
                         (Extension.document h))
                 (Extension.showInformationMessage
                    (str "Optimization process started...") h))).
Proof.
  intros He.
  pose proof (getOptimizedCode_cases toLowerCase generateText exec
                new_Function ai_validation (Extension.document h)) as H.
  assert (Hm : exists message, error = failed message).
  { rewrite He in H.
    destruct H as [[_ [m Hm]] | [_ [(m & _ & Hm) | [(a & _ & _ & Hr)
                  | (a & _ & _ & [(m & _ & Hm) | (t & _ & Hr)])]]]];
      try (exists m; now injection Hm); try discriminate Hr.
    destruct (Refine.refineOptimizedCode _ _) as [m|c];
      [exists m; now injection Hr | discriminate Hr]. }
  destruct Hm as [m ->]. exists m. split; [reflexivity|].
  pose proof (getOptimizedCode_failure_shows toLowerCase generateText exec
                new_Function ai_validation (Extension.document h) He) as Hs.
  unfold optimizeCode. simpl negb. cbv iota zeta.
  destruct (getOptimizedCode toLowerCase generateText exec new_Function
              ai_validation (Extension.document h)) as [shown result].
  cbn [fst snd] in He, Hs. subst shown result. reflexivity.
Qed.

Lemma getOptimizedCode_unknown_language_witness :
  (exists message,
     snd (getOptimizedCode (fun t => t) unreachable (fun _ _ => inl [])
            (fun _ => None) no_validation (str "x = 1"))
     = inl (failed message))
  \/ snd (getOptimizedCode (fun t => t) unreachable (fun _ _ => inl [])
            (fun _ => None) no_validation (str "x = 1"))
     = inr (str "x = 1", no_optimizations).
Proof.
  exact (proj1 (getOptimizedCode_unknown_language (fun t => t) unreachable
                  (fun _ _ => inl []) (fun _ => None) no_validation
                  (str "x = 1")) eq_refl).
Defined.

Lemma getOptimizedCode_result_witness :
  Syntax.isValid
    (Syntax.validateSyntax (fun _ _ => inl []) (fun _ => None) one_warning
       (str "x = 1")
       (AiDetect.detectLanguage (fun t => t) (generateContent answers_no)
          (str "x = 1")))
  = true.
Proof.
  exact (proj1 (getOptimizedCode_result (fun t => t) answers_no
                  (fun _ _ => inl []) (fun _ => None) one_warning
                  (str "x = 1") (code := str "x = 1")
                  (explanation := no_optimizations) eq_refl)).
Defined.

Lemma optimizeCode_failure_message_witness :
  exists message,
    optimizeCode (fun t => t) unreachable (fun _ _ => inl [])
      (fun _ => None) no_validation true Extension.sample_host
    = Extension.Ended
        (Extension.mkHost (str "x = 1") []
           [Extension.Error
              (str "Failed to optimize code: Failed to optimize code: "
                 ++ message);
            Extension.Info (str "Detected Language: unknown");
            Extension.Info (str "Optimization process started...")]
           false).
Proof.
  destruct (optimizeCode_failure_message (fun t => t) unreachable
              (fun _ _ => inl []) (fun _ => None) no_validation
              Extension.sample_host
              (error := failed
                          (str "Original code has syntax issues:"
                             ++ Refine.newline
                             ++ str "Line 1: Unsupported language"))
              eq_refl) as (message & _ & H).
  exists message. exact H.
Defined.

End PipelineFacts.

(** ** The tabs of the review panel *)

Module TabsFacts.

Import Tabs.

Lemma hide_not_shown (e : element) : shown (hide e) = false.
Proof.
  unfold hide, shown. destruct (tab_content e) eqn:E; simpl; [reflexivity|].
  now rewrite E.
Qed.

Lemma hidden_not_shown (es : list element) (k : nat) (e : element) :
  nth_error (List.map hide es) k = Some e -> shown e = false.
Proof.
  rewrite nth_error_map. destruct (nth_error es k); [|discriminate].
  intros H. injection H as <-. apply hide_not_shown.
Qed.

Lemma show_first_Some (tabId : jsstring) (es es' : list element) :
  show_first tabId es = Some es' ->
  exists before e behind,
    es = before ++ e :: behind
    /\ es' = before
             ++ mkElement (id e) (tab_content e) (Some (str "block")) :: behind
    /\ id e = Some tabId.
Proof.
  revert es'. induction es as [|x es IH]; intros es'; simpl; [discriminate|].
  destruct (has_id tabId x) eqn:Hx.
  - intros H. injection H as <-. exists [], x, es.
    repeat split. unfold has_id in Hx.
    destruct (id x) as [i|]; [|discriminate].
    apply JSFacts.eqb_eq in Hx. now subst.
  - destruct (show_first tabId es) as [r|]; [|discriminate].
    intros H. injection H as <-.
    destruct (IH r eq_refl) as (b & e & a & -> & -> & Hid).
    now exists (x :: b), e, a.
Qed.

Lemma show_first_None (tabId : jsstring) (es : list element) :
  show_first tabId es = None <->
  forall e, In e es -> id e <> Some tabId.
Proof.
  induction es as [|x es IH]; simpl.
  - split; [intros _ e [] | reflexivity].
  - destruct (has_id tabId x) eqn:Hx.
    + split; [discriminate|]. intros H. exfalso. apply (H x); [now left|].
      unfold has_id in Hx. destruct (id x) as [i|]; [|discriminate].
      apply JSFacts.eqb_eq in Hx. now subst.
    + destruct (show_first tabId es) as [r|]; simpl.
      * split; [discriminate|]. intros H.
        assert (Hn : @None (list element) = None) by reflexivity.
        destruct IH as [_ IH]. discriminate IH.
        intros e He. apply H. now right.
      * split; [|reflexivity]. intros _ e [<- | He].
        -- unfold has_id in Hx. destruct (id x) as [i|]; [|discriminate].
           intros E. injection E as ->.
           now rewrite JSFacts.eqb_refl in Hx.
        -- now apply (proj1 IH).
Qed.

Lemma id_hide (e : element) : id (hide e) = id e.
Proof. unfold hide. now destruct (tab_content e). Qed.

Lemma activate_only (i : nat) (bs : list button) (j : nat) (b : button) :
  nth_error (activate i (List.map deactivate bs)) j = Some b ->
  active b = true -> j = i.
Proof.
  revert i j. induction bs as [|x bs IH]; intros i j; simpl.
  - destruct i; now destruct j.
  - destruct i as [|i]; destruct j as [|j]; simpl.
    + reflexivity.
    + rewrite nth_error_map. destruct (nth_error bs j); [|discriminate].
      intros H. injection H as <-. discriminate.
    + intros H. injection H as <-. discriminate.
    + intros H Ha. f_equal. now apply (IH i j).
Qed.

Lemma activate_clicked (i : nat) (bs : list button) (b : button) :
  nth_error bs i = Some b ->
  exists b', nth_error (activate i bs) i = Some b' /\ active b' = true.
Proof.
  revert i. induction bs as [|x bs IH]; intros i; [now destruct i|].
  destruct i as [|i]; simpl.
  - intros _. eexists. split; reflexivity.
  - apply IH.
Qed.

(** X17: a click on a tab button leaves at most one tab on display and at
    most one button active. When an element carries the [id] named by the
    button, that element is shown and the clicked button is the active one;
    when no element carries it, the listener throws, every tab is hidden
    and no button is active. *)
Theorem click_shows_one_tab (i : nat) (p : page) (button : Tabs.button) :
  nth_error (buttons p) i = Some button ->
  let tabId := match data_tab button with
               | Some t => t
               | None => str "null"
               end in
  (forall k k' e e',
     nth_error (elements (snd (click i p))) k = Some e ->
     nth_error (elements (snd (click i p))) k' = Some e' ->
     shown e = true -> shown e' = true -> k = k')
  /\ (forall j b, nth_error (buttons (snd (click i p))) j = Some b ->
                  active b = true -> j = i /\ fst (click i p) = inr tt)
  /\ (fst (click i p) = inr tt ->
      (exists k e, nth_error (elements (snd (click i p))) k = Some e
                   /\ id e = Some tabId
                   /\ display e = Some (str "block"))
      /\ exists b, nth_error (buttons (snd (click i p))) i = Some b
                   /\ active b = true)
  /\ (fst (click i p) = inl DiffLib.TypeError <->
      forall e, In e (elements p) -> id e <> Some tabId)
  /\ (fst (click i p) = inl DiffLib.TypeError ->
      forall k e, nth_error (elements (snd (click i p))) k = Some e ->
                  shown e = false).
Proof.
  intros Hb tabId. unfold click. rewrite Hb. cbv zeta. fold tabId.
  destruct (show_first tabId (List.map hide (elements p))) as [es'|] eqn:Hs.
  - apply show_first_Some in Hs.
    destruct Hs as (before & e0 & behind & Hes & -> & Hid).
    assert (Hother : forall k e,
      nth_error
        (before ++ mkElement (id e0) (tab_content e0) (Some (str "block"))
           :: behind) k = Some e ->
      shown e = true -> k = List.length before).
    { intros k e Hk He.
      destruct (Nat.lt_trichotomy k (List.length before)) as [Hlt|[Heq|Hgt]];
        [|assumption|]; exfalso.
      - rewrite nth_error_app1 in Hk by assumption.
        assert (Hh : nth_error (List.map hide (elements p)) k = Some e)
          by (rewrite Hes, nth_error_app1; assumption).
        apply hidden_not_shown in Hh. congruence.
      - rewrite nth_error_app2 in Hk by lia.
        destruct (k - List.length before) as [|m] eqn:Hm; [lia|].
        simpl in Hk.
        assert (Hh : nth_error (List.map hide (elements p)) k = Some e).
        { rewrite Hes, nth_error_app2 by lia. now rewrite Hm. }
        apply hidden_not_shown in Hh. congruence. }
    simpl. split; [|split; [|split; [|split]]].
    + intros k k' e e' Hk Hk' He He'.
      rewrite (Hother k e Hk He), (Hother k' e' Hk' He'). reflexivity.
    + intros j b Hj Ha. split; [|reflexivity]. now apply (activate_only _ _ _ Hj).
    + intros _. split.
      * exists (List.length before), (mkElement (id e0) (tab_content e0)
                                        (Some (str "block"))).
        rewrite nth_error_app2, Nat.sub_diag by lia. now repeat split.
      * apply activate_clicked with (b := deactivate button).
        rewrite nth_error_map. now rewrite Hb.
    + split; [discriminate|]. intros Hno. exfalso.
      assert (Hin : In e0 (List.map hide (elements p)))
        by (rewrite Hes; apply in_elt).
      apply in_map_iff in Hin. destruct Hin as (x & <- & Hx).
      rewrite id_hide in Hid. now apply (Hno x).
    + discriminate.
  - simpl. split; [|split; [|split; [|split]]].
    + intros k k' e e' Hk _ He. apply hidden_not_shown in Hk. congruence.
    + intros j b Hj Ha. rewrite nth_error_map in Hj.
      destruct (nth_error (buttons p) j); [|discriminate].
      injection Hj as <-. discriminate.
    + discriminate.
    + split; [|reflexivity]. intros _ e He.
      rewrite <- (id_hide e).
      apply (proj1 (show_first_None tabId (List.map hide (elements p))) Hs).
      now apply in_map.
    + intros _ k e. apply hidden_not_shown.
Qed.

Lemma click_shows_one_tab_witness :
  fst (click 1
         (mkPage [mkElement (Some (str "original")) true None]
                 [mkButton (Some (str "original")) true;
                  mkButton (Some (str "optimized")) false]))
  = inl DiffLib.TypeError.
Proof.
  refine (proj2 (proj1 (proj2 (proj2 (proj2
            (@click_shows_one_tab 1
               (mkPage [mkElement (Some (str "original")) true None]
                       [mkButton (Some (str "original")) true;
                        mkButton (Some (str "optimized")) false])
               (mkButton (Some (str "optimized")) false) eq_refl))))) _).
  intros e [<- | []]. simpl. intros H. injection H as H. discriminate H.
Defined.

End TabsFacts.
